(** * easunpy.modbusclient: frame codec and retry loop

    A shallow embedding of [easunpy/modbusclient.py] and the properties of
    its request encoder, response decoder, register-range extraction and
    retrying [ModbusClient.send].

    Python values are modelled as follows.
    - [int] is [Z]; [>>] is [Z.shiftr] and [&] is [Z.land], which agree with
      Python on negative numbers (both are two's complement on unbounded
      integers).
    - [str] is [list ascii], a character being its code point below 256.
    - [bytes] / [bytearray] is [list Z] with every element in [0, 256);
      the constructors that Python range-checks are range-checked here.
    - an exception is the [Raise] branch of [result]. *)

From Stdlib Require Import ZArith List Ascii String DecimalString Bool Lia.
Import ListNotations.
Open Scope Z_scope.

(** ** Python primitives used by the module *)

Module Py.

Definition str := list ascii.
Definition bytes := list Z.

(** The [ValueError]s that can arise, told apart by their origin. *)
Inductive value_error : Type :=
| ByteOutOfRange                 (* bytearray(...): byte must be in range(0, 256) *)
| NonHexadecimal                 (* bytes.fromhex: non-hexadecimal number found *)
| InvalidLiteral                 (* int(s, 16): invalid literal *)
| UnsupportedDataFormat (fmt : str). (* raise ValueError(f"Unsupported data format: ...") *)

Inductive exn : Type :=
| ValueError (e : value_error)
| StructError.                   (* struct.error *)

Inductive result (A : Type) : Type :=
| Ok (a : A)
| Raise (e : exn).
Arguments Ok {A} a.
Arguments Raise {A} e.

Definition bind {A B} (m : result A) (k : A -> result B) : result B :=
  match m with
  | Ok a => k a
  | Raise e => Raise e
  end.

Definition is_ok {A} (m : result A) : bool :=
  match m with Ok _ => true | Raise _ => false end.

Definition lit (s : string) : str := list_ascii_of_string s.

Definition code (c : ascii) : Z := Z.of_N (N_of_ascii c).

(** [s == t] on strings. *)
Fixpoint str_eqb (s t : str) : bool :=
  match s, t with
  | [], [] => true
  | a :: s', b :: t' => Ascii.eqb a b && str_eqb s' t'
  | _, _ => false
  end.

(** [len(x)] *)
Definition len {A} (l : list A) : Z := Z.of_nat (List.length l).

(** [s[lo:hi]] for arbitrary integers [lo], [hi]: a negative index counts from
    the end, and both are clipped to [0, len(s)]. *)
Definition clip_index {A} (l : list A) (i : Z) : Z :=
  if i <? 0 then Z.max (i + len l) 0 else Z.min i (len l).

Definition slice {A} (l : list A) (lo hi : Z) : list A :=
  let lo' := clip_index l lo in
  let hi' := clip_index l hi in
  firstn (Z.to_nat (hi' - lo')) (skipn (Z.to_nat lo') l).

(** [s[lo:]] *)
Definition slice_from {A} (l : list A) (lo : Z) : list A :=
  skipn (Z.to_nat (clip_index l lo)) l.

(** [bytearray([...])] and [bytearray.extend([...])] from a list of ints:
    each element must be in [range(0, 256)]. *)
Definition is_byte (b : Z) : bool := (0 <=? b) && (b <? 256).

Definition bytearray (l : list Z) : result bytes :=
  if forallb is_byte l then Ok l else Raise (ValueError ByteOutOfRange).

Definition extend (b : bytes) (l : list Z) : result bytes :=
  bind (bytearray l) (fun l' => Ok (b ++ l')).

(** [bytes.hex()]: two lowercase hexadecimal digits per byte. *)
Definition hex_digit (d : Z) : ascii :=
  if d <? 10 then ascii_of_N (Z.to_N (48 + d)) else ascii_of_N (Z.to_N (87 + d)).

Definition hex_byte (b : Z) : str := [hex_digit (b / 16); hex_digit (b mod 16)].

Definition hex (bs : bytes) : str := flat_map hex_byte bs.

(** The value of a hexadecimal digit, either case. *)
Definition hex_value (c : ascii) : option Z :=
  let n := code c in
  if (48 <=? n) && (n <=? 57) then Some (n - 48)
  else if (97 <=? n) && (n <=? 102) then Some (n - 87)
  else if (65 <=? n) && (n <=? 70) then Some (n - 55)
  else None.

(** A lowercase hexadecimal character: [0-9a-f]. *)
Definition is_lower_hex (c : ascii) : bool :=
  let n := code c in ((48 <=? n) && (n <=? 57)) || ((97 <=? n) && (n <=? 102)).

(** The number written by a list of hexadecimal digits, most significant first. *)
Definition digits_value (ds : list Z) (acc : Z) : Z :=
  fold_left (fun a d => a * 16 + d) ds acc.

(** ASCII white space, as skipped by [bytes.fromhex]. *)
Definition is_ascii_space (c : ascii) : bool :=
  let n := code c in ((9 <=? n) && (n <=? 13)) || (n =? 32).

(** White space as skipped by [int(s, 16)] at both ends: the ASCII white
    space and, above 127, the two spaces of Unicode below 256. *)
Definition is_space (c : ascii) : bool :=
  let n := code c in
  ((9 <=? n) && (n <=? 13)) || (n =? 32) || (n =? 133) || (n =? 160).

(** [bytes.fromhex(s)]: pairs of hexadecimal digits, white space allowed
    between pairs only. *)
Fixpoint fromhex (s : str) : result bytes :=
  match s with
  | [] => Ok []
  | c :: r =>
      if is_ascii_space c then fromhex r
      else match hex_value c, r with
           | Some top, c2 :: r2 =>
               match hex_value c2 with
               | Some bot => bind (fromhex r2) (fun bs => Ok (top * 16 + bot :: bs))
               | None => Raise (ValueError NonHexadecimal)
               end
           | _, _ => Raise (ValueError NonHexadecimal)
           end
  end.

(** [int(s, 16)].  After leading white space and an optional sign, an optional
    [0x] / [0X] prefix (which may be followed by one underscore), then
    hexadecimal digits with single underscores between them, then white
    space to the end. *)
Fixpoint lstrip (s : str) : str :=
  match s with
  | c :: r => if is_space c then lstrip r else s
  | [] => []
  end.

Definition is_underscore (c : ascii) : bool := code c =? 95.

(** Scans the digits; [prev] tells whether the previous character was an
    underscore, [n] counts the digits read.  [None] is a misplaced
    underscore. *)
Fixpoint scan_digits (prev : bool) (n : nat) (acc : Z) (s : str)
  : option (nat * Z * str) :=
  match s with
  | [] => if prev then None else Some (n, acc, [])
  | c :: r =>
      if is_underscore c then
        if prev then None else scan_digits true n acc r
      else match hex_value c with
           | Some d => scan_digits false (S n) (acc * 16 + d) r
           | None => if prev then None else Some (n, acc, s)
           end
  end.

Definition split_sign (s : str) : Z * str :=
  match s with
  | c :: r => if code c =? 43 then (1, r)
              else if code c =? 45 then (-1, r)
              else (1, s)
  | [] => (1, s)
  end.

Definition skip_prefix (s : str) : str :=
  match s with
  | z :: x :: r =>
      if (code z =? 48) && ((code x =? 120) || (code x =? 88)) then
        match r with
        | u :: r' => if is_underscore u then r' else r
        | [] => r
        end
      else s
  | _ => s
  end.

Definition int16 (s : str) : result Z :=
  let (sign, s1) := split_sign (lstrip s) in
  let s2 := skip_prefix s1 in
  match s2 with
  | u :: _ => if is_underscore u then Raise (ValueError InvalidLiteral)
              else
                match scan_digits false 0 0 s2 with
                | Some (S _, v, rest) =>
                    match lstrip rest with
                    | [] => Ok (sign * v)
                    | _ :: _ => Raise (ValueError InvalidLiteral)
                    end
                | _ => Raise (ValueError InvalidLiteral)
                end
  | [] => Raise (ValueError InvalidLiteral)
  end.

(** [range(n)] as the list [0, 1, ..., n-1]; empty when [n <= 0]. *)
Definition range (n : Z) : list Z := map Z.of_nat (seq 0 (Z.to_nat n)).

End Py.

Import Py.

Notation "x <- m ;; k" := (bind m (fun x => k))
  (at level 61, m at next level, right associativity).

(** ** The frame codec *)

Section FrameCodec.

(** [easunpy.crc.crc16_modbus], imported by the module: any function from the
    bytes of the message body to an integer. *)
Variable crc16_modbus : bytes -> Z.

(** The six bytes over which the checksum is computed. *)
Definition message_body (unit_id function_code register_address register_offset : Z)
  : list Z :=
  [ unit_id;
    function_code;
    Z.land (Z.shiftr register_address 8) 255;
    Z.land register_address 255;
    Z.land (Z.shiftr register_offset 8) 255;
    Z.land register_offset 255 ].

Definition create_request
  (transaction_id protocol_id unit_id function_code
   register_address register_offset : Z) : result str :=
  message_frame <-
    bytearray (message_body unit_id function_code register_address register_offset) ;;
  let crc := crc16_modbus message_frame in
  command <-
    bytearray [ Z.land (Z.shiftr transaction_id 8) 255;
                Z.land transaction_id 255;
                Z.land (Z.shiftr protocol_id 8) 255;
                Z.land protocol_id 255;
                0; 10; 255; 4 ] ;;
  command <- extend command message_frame ;;
  command <- extend command [ Z.land crc 255; Z.land (Z.shiftr crc 8) 255 ] ;;
  Ok (hex command).

(** Follows the spec's words: the frame as
    [[tidHi, tidLo, protoHi, protoLo, 0x00, 0x0A, 0xFF, 0x04] + body +
    [crc & 0xFF, crc >> 8]], the high and low bytes written with division
    and remainder. *)
Definition request_body (unit_id function_code register_address register_count : Z)
  : bytes :=
  [ unit_id; function_code;
    (register_address / 256) mod 256; register_address mod 256;
    (register_count / 256) mod 256; register_count mod 256 ].

Definition request_frame
  (transaction_id protocol_id unit_id function_code
   register_address register_count : Z) : bytes :=
  let body := request_body unit_id function_code register_address register_count in
  let crc := crc16_modbus body in
  [ (transaction_id / 256) mod 256; transaction_id mod 256;
    (protocol_id / 256) mod 256; protocol_id mod 256;
    0; 10; 255; 4 ]
  ++ body ++ [ crc mod 256; (crc / 256) mod 256 ].

End FrameCodec.

(** *** Decoding a response *)

(** A decoded register value.  A float is kept as the four bytes that
    [struct.unpack('f', ...)] was given. *)
Inductive value : Type :=
| VInt (z : Z)
| VFloat (b0 b1 b2 b3 : Z).

(** [struct.unpack('f', b)[0]]: the buffer must hold exactly four bytes. *)
Definition struct_unpack_f (b : bytes) : result value :=
  match b with
  | [b0; b1; b2; b3] => Ok (VFloat b0 b1 b2 b3)
  | _ => Raise StructError
  end.

(** The body of the [for] loop of [decode_modbus_response] at index [i]. *)
Definition decode_value (data_format data_bytes : str) (i : Z) : result value :=
  if str_eqb data_format (lit "Int") then
    value <- int16 (slice data_bytes (i * 4) ((i + 1) * 4)) ;;
    Ok (VInt (if value >=? 32768 then value - 65536 else value))
  else if str_eqb data_format (lit "UnsignedInt") then
    value <- int16 (slice data_bytes (i * 4) ((i + 1) * 4)) ;;
    Ok (VInt value)
  else if str_eqb data_format (lit "Float") then
    b <- fromhex (slice data_bytes (i * 4) ((i + 1) * 4)) ;;
    struct_unpack_f b
  else Raise (ValueError (UnsupportedDataFormat data_format)).

Fixpoint decode_loop (data_format data_bytes : str) (indices : list Z)
  (values : list value) : result (list value) :=
  match indices with
  | [] => Ok values
  | i :: rest =>
      value <- decode_value data_format data_bytes i ;;
      decode_loop data_format data_bytes rest (values ++ [value])
  end.

(** The slices [req_id], [extra_field], [device_address] and [function_code]
    are taken and never used; a slice cannot raise, so they are left out. *)
Definition decode_modbus_response (response : str) (register_count : Z)
  (data_format : str) : result (list value) :=
  let length_hex := slice response 8 12 in
  length <- int16 length_hex ;;
  let rtu_payload := slice response 12 (12 + length * 2) in
  num_data_bytes <- int16 (slice rtu_payload 8 10) ;;
  let data_bytes := slice rtu_payload 10 (10 + num_data_bytes * 2) in
  decode_loop data_format data_bytes (range register_count) [].

(** *** The registers a request addresses *)

Definition get_registers_from_request (request : str) : result (list Z) :=
  let rtu_payload := slice_from request 12 in
  register_address <- int16 (slice rtu_payload 8 12) ;;
  register_count <- int16 (slice rtu_payload 12 16) ;;
  Ok (fold_left (fun registers i => registers ++ [register_address + i])
        (range register_count) []).

(** ** A synthetic response frame *)

(** A 16-bit value as two bytes, high byte first. *)
Definition be16 (v : Z) : bytes := [v / 256; v mod 256].

(** Follows the spec's words.  A well-formed response carrying the 16-bit
    values [values]: a 4-byte transaction/protocol header, the 2-byte
    big-endian count of the payload bytes that follow, and the payload: four
    bytes (extra field, device address, function code and one more), the
    declared number of data bytes, and the values as big-endian words. *)
Definition synthetic_response (header rtu_head : bytes) (values : list Z) : str :=
  let n := len values in
  hex (header ++ be16 (5 + 2 * n) ++ rtu_head ++ [2 * n] ++ flat_map be16 values).

(** ** The checksum collaborator *)

(** Modelled from the spec: [easunpy/crc.py] is not among the sources; the
    spec gives its contract as the Modbus-RTU CRC with polynomial 0xA001
    and initial value 0xFFFF.  The codec above takes the checksum as a
    parameter; this instance serves to run it on concrete frames. *)
Definition crc16_step (crc : Z) : Z :=
  if Z.testbit crc 0 then Z.lxor (Z.shiftr crc 1) 40961 else Z.shiftr crc 1.

Definition crc16_byte (crc b : Z) : Z :=
  Nat.iter 8 crc16_step (Z.lxor crc b).

Definition crc16_modbus_ref (data : bytes) : Z := fold_left crc16_byte data 65535.

(** ** The client and its network *)

(** The network is scripted: what each socket operation of an attempt does is
    fixed in advance by an [attempt_env], and [ModbusClient.send] is run
    against a function giving the script of every attempt.  The functions
    return the operations they performed, in order, beside their result.
    Creating a socket and setting its options are taken to succeed, and
    logging is left out. *)

Record ModbusClient : Type := {
  inverter_ip : str;
  local_ip : str;
  port : Z;
  request_id : Z
}.

Inductive io_event : Type :=
| UdpSendto (payload : str) (ip : str) (to_port : Z)
| UdpRecvfrom (bufsize : Z)
| TcpBind (ip : str) (on_port : Z)
| TcpListen (backlog : Z)
| TcpAccept
| TcpSendall (data : bytes)
| TcpRecv (bufsize : Z)
| Sleep (seconds : Z).

(** What one [recv(1024)] on the accepted connection does: return a chunk
    (the empty chunk when the peer has closed) or raise.  Once the script is
    used up the peer has closed. *)
Inductive recv_event : Type :=
| RecvData (chunk : bytes)
| RecvRaises.

Record connection : Type := {
  sendall_raises : bool;
  recvs : list recv_event
}.

(** The discovery datagram: [sendto] raises, or [recvfrom] raises (a timeout
    included), or an answer arrives. *)
Inductive udp_outcome : Type :=
| UdpSendtoRaises
| UdpRecvfromRaises
| UdpAnswered.

(** The listening socket: one of [bind], [listen], [accept] raises (a timeout
    included), or the device connects. *)
Inductive tcp_outcome : Type :=
| BindRaises
| ListenRaises
| AcceptRaises
| Accepted (c : connection).

Record attempt_env : Type := {
  udp : udp_outcome;
  tcp : tcp_outcome
}.

(** [str(n)] for an integer. *)
Definition str_of_int (n : Z) : str :=
  list_ascii_of_string (NilZero.string_of_int (Z.to_int n)).

Definition send_udp_discovery (self : ModbusClient) (o : udp_outcome)
  : list io_event * bool :=
  let udp_message :=
    lit "set>server=" ++ local_ip self ++ lit ":" ++ str_of_int (port self) ++ lit ";" in
  match o with
  | UdpSendtoRaises =>
      ([UdpSendto udp_message (inverter_ip self) 58899], false)
  | UdpRecvfromRaises =>
      ([UdpSendto udp_message (inverter_ip self) 58899; UdpRecvfrom 1024], false)
  | UdpAnswered =>
      ([UdpSendto udp_message (inverter_ip self) 58899; UdpRecvfrom 1024], true)
  end.

(** [int.from_bytes(b, 'big')] *)
Definition int_from_bytes_big (b : bytes) : Z :=
  fold_left (fun acc x => acc * 256 + x) b 0.

(** [client_sock.recv(1024)] against the script: the chunk returned ([None]
    when it raises) and the rest of the script. *)
Definition recv (script : list recv_event) : option bytes * list recv_event :=
  match script with
  | [] => (Some [], [])
  | RecvData chunk :: script' => (Some chunk, script')
  | RecvRaises :: script' => (None, script')
  end.

(** The [while len(response) < expected_length] loop, one [recv] per
    iteration; an empty chunk breaks out of it.  [None] is an exception
    raised by [recv]. *)
Fixpoint recv_rest (expected_length : Z) (response : bytes) (script : list recv_event)
  : list io_event * option bytes :=
  if len response <? expected_length then
    match script with
    | [] => ([TcpRecv 1024], Some response)
    | RecvRaises :: _ => ([TcpRecv 1024], None)
    | RecvData [] :: _ => ([TcpRecv 1024], Some response)
    | RecvData chunk :: script' =>
        let (log, r) := recv_rest expected_length (response ++ chunk) script' in
        (TcpRecv 1024 :: log, r)
    end
  else ([], Some response).

(** The body of [with client_sock:]: write the command, read the response.
    [None] is an exception raised by [sendall] or [recv]. *)
Definition exchange (command_bytes : bytes) (c : connection)
  : list io_event * option bytes :=
  if sendall_raises c then ([TcpSendall command_bytes], None)
  else
    match recv (recvs c) with
    | (None, _) => ([TcpSendall command_bytes; TcpRecv 1024], None)
    | (Some response, script) =>
        if len response >=? 6 then
          let expected_length := int_from_bytes_big (slice response 4 6) + 6 in
          let (log, r) := recv_rest expected_length response script in
          ([TcpSendall command_bytes; TcpRecv 1024] ++ log, r)
        else ([TcpSendall command_bytes; TcpRecv 1024], Some response)
    end.

(** One iteration of the [for attempt in range(retry_count)] loop: either
    [send] returns, or the loop continues with the next attempt. *)
Inductive attempt_result : Type :=
| Returned (response_hex : str)
| Continue.

Definition attempt (self : ModbusClient) (command_bytes : bytes) (e : attempt_env)
  : list io_event * attempt_result :=
  let (log_udp, discovered) := send_udp_discovery self (udp e) in
  if negb discovered then (log_udp ++ [Sleep 1], Continue)
  else
    let bind_ev := TcpBind (local_ip self) (port self) in
    match tcp e with
    | BindRaises => (log_udp ++ [bind_ev; Sleep 1], Continue)
    | ListenRaises => (log_udp ++ [bind_ev; TcpListen 1; Sleep 1], Continue)
    | AcceptRaises =>
        (log_udp ++ [bind_ev; TcpListen 1; TcpAccept; Sleep 1], Continue)
    | Accepted c =>
        let (log_x, r) := exchange command_bytes c in
        match r with
        | Some response =>
            (log_udp ++ [bind_ev; TcpListen 1; TcpAccept] ++ log_x,
             Returned (hex response))
        | None =>
            (log_udp ++ [bind_ev; TcpListen 1; TcpAccept] ++ log_x ++ [Sleep 1],
             Continue)
        end
    end.

Fixpoint send_loop (self : ModbusClient) (command_bytes : bytes)
  (env : Z -> attempt_env) (attempts : list Z) : list io_event * str :=
  match attempts with
  | [] => ([], [])
  | k :: rest =>
      let (log, r) := attempt self command_bytes (env k) in
      match r with
      | Returned response_hex => (log, response_hex)
      | Continue =>
          let (log', out) := send_loop self command_bytes env rest in
          (log ++ log', out)
      end
  end.

(** [ModbusClient.send]: [env k] scripts the network for attempt [k]. *)
Definition send (self : ModbusClient) (hex_command : str) (retry_count : Z)
  (env : Z -> attempt_env) : result (list io_event * str) :=
  command_bytes <- fromhex hex_command ;;
  Ok (send_loop self command_bytes env (range retry_count)).

(** [ModbusClient(inverter_ip, local_ip, port)]: the request counter starts
    at 0. *)
Definition ModbusClient_init (inverter_ip0 local_ip0 : str) (port0 : Z) : ModbusClient :=
  {| inverter_ip := inverter_ip0; local_ip := local_ip0; port := port0; request_id := 0 |}.

(** [run_single_request]: a client on the default port 8899 and a [send]
    with the default two attempts. *)
Definition run_single_request (inverter_ip0 local_ip0 request : str)
  (env : Z -> attempt_env) : result (list io_event * str) :=
  let inverter := ModbusClient_init inverter_ip0 local_ip0 8899 in
  send inverter request 2 env.

(** ** Auxiliary notions of the properties *)

(** How a format reads one 16-bit word. *)
Definition reads_words (data_format : str) (g : Z -> value) : Prop :=
  forall pre v post, 0 <= v < 65536 ->
    decode_value data_format (hex (flat_map be16 pre) ++ hex (be16 v) ++ post) (len pre)
    = Ok (g v).

(** The response of the exchange of an attempt, [None] when the attempt
    fails at discovery, at accepting the connection or during the exchange. *)
Definition exchanged (command_bytes : bytes) (e : attempt_env) : option bytes :=
  match udp e, tcp e with
  | UdpAnswered, Accepted c => snd (exchange command_bytes c)
  | _, _ => None
  end.

(** The operations performed by attempt [k]. *)
Definition attempt_ops (self : ModbusClient) (command_bytes : bytes)
  (env : Z -> attempt_env) (k : Z) : list io_event :=
  fst (attempt self command_bytes (env k)).

(** A client, and a device that answers the discovery, connects and closes
    the connection without sending anything. *)
Definition a_client : ModbusClient :=
  {| inverter_ip := lit "192.168.1.50"; local_ip := lit "192.168.1.10";
     port := 8899; request_id := 0 |}.

Definition silent_device : attempt_env :=
  {| udp := UdpAnswered;
     tcp := Accepted {| sendall_raises := false; recvs := [] |} |}.

(** A device that never answers the discovery. *)
Definition absent_device : attempt_env :=
  {| udp := UdpRecvfromRaises; tcp := AcceptRaises |}.

(** Observers of a log of operations. *)
Definition is_udp_sendto (ev : io_event) : bool :=
  match ev with UdpSendto _ _ _ => true | _ => false end.

Definition is_sleep (ev : io_event) : bool :=
  match ev with Sleep _ => true | _ => false end.

Definition is_tcp_recv (ev : io_event) : bool :=
  match ev with TcpRecv _ => true | _ => false end.

Definition count_ops (p : io_event -> bool) (log : list io_event) : nat :=
  List.length (filter p log).


(** The operations that a client can perform for a command. *)
Definition client_op (self : ModbusClient) (command_bytes : bytes) (ev : io_event)
  : Prop :=
  ev = UdpSendto
         (lit "set>server=" ++ local_ip self ++ lit ":" ++ str_of_int (port self)
            ++ lit ";")
         (inverter_ip self) 58899
  \/ ev = UdpRecvfrom 1024
  \/ ev = TcpBind (local_ip self) (port self)
  \/ ev = TcpListen 1
  \/ ev = TcpAccept
  \/ ev = TcpSendall command_bytes
  \/ ev = TcpRecv 1024
  \/ ev = Sleep 1.

(** Closes a goal that an operation is one of a list of alternatives, and a
    goal that every operation of an explicit list is. *)
Ltac one_of := cbv beta; unfold client_op; repeat first [reflexivity | left; reflexivity | right].
Ltac each_one_of := repeat (apply Forall_cons; [one_of|]); try apply Forall_nil.


(** The hexadecimal digits of a byte string, two per byte. *)
Definition nibbles (bs : bytes) : list Z := flat_map (fun b => [b / 16; b mod 16]) bs.

(** The bytes of [synthetic_response], before they are written in
    hexadecimal. *)
Definition synthetic_frame (header rtu_head : bytes) (values : list Z) : bytes :=
  header ++ be16 (5 + 2 * len values) ++ rtu_head ++ [2 * len values]
  ++ flat_map be16 values.

(** Every character, by code point. *)
Definition all_chars : list ascii := map ascii_of_nat (seq 0 256).

(** The attempt indices [s], [s+1], ..., [s+m-1]. *)
Definition attempts (s m : nat) : list Z := map Z.of_nat (seq s m).

(** * Properties *)

(** ** Lists, slices and hexadecimal text *)

Lemma len_app {A} (a b : list A) : len (a ++ b) = len a + len b.
Proof. unfold len. rewrite length_app. lia. Qed.

Lemma len_nonneg {A} (a : list A) : 0 <= len a.
Proof. unfold len. lia. Qed.

Lemma slice_mid {A} (a b c : list A) (lo hi : Z) :
  lo = len a -> hi = lo + len b -> slice (a ++ b ++ c) lo hi = b.
Proof.
  intros -> ->. unfold slice, clip_index.
  pose proof (len_nonneg a). pose proof (len_nonneg b). pose proof (len_nonneg c).
  rewrite !len_app.
  destruct (Z.ltb_spec (len a) 0); [lia|].
  destruct (Z.ltb_spec (len a + len b) 0); [lia|].
  rewrite !Z.min_l by lia.
  replace (len a + len b - len a) with (len b) by lia.
  unfold len. rewrite !Nat2Z.id.
  rewrite skipn_app, skipn_all, Nat.sub_diag. cbn [skipn app].
  rewrite firstn_app, firstn_all, Nat.sub_diag. cbn [firstn]. apply app_nil_r.
Qed.

Lemma slice_tail {A} (a b : list A) (lo hi : Z) :
  lo = len a -> hi = lo + len b -> slice (a ++ b) lo hi = b.
Proof.
  intros. rewrite <- (app_nil_r b) at 1. now apply slice_mid.
Qed.

Lemma slice_from_app {A} (a b : list A) (lo : Z) :
  lo = len a -> slice_from (a ++ b) lo = b.
Proof.
  intros ->. unfold slice_from, clip_index.
  pose proof (len_nonneg a). pose proof (len_nonneg b). rewrite len_app.
  destruct (Z.ltb_spec (len a) 0); [lia|].
  rewrite Z.min_l by lia. unfold len. rewrite Nat2Z.id.
  rewrite skipn_app, skipn_all, Nat.sub_diag. reflexivity.
Qed.

Lemma hex_app (a b : bytes) : hex (a ++ b) = hex a ++ hex b.
Proof. apply flat_map_app. Qed.

Lemma len_hex (a : bytes) : len (hex a) = 2 * len a.
Proof.
  induction a as [|x a IH]; [reflexivity|].
  change (hex (x :: a)) with (hex_byte x ++ hex a).
  rewrite len_app, IH. unfold len. cbn [List.length hex_byte]. lia.
Qed.

Lemma digit_cases (d : Z) : 0 <= d < 16 ->
  d = 0 \/ d = 1 \/ d = 2 \/ d = 3 \/ d = 4 \/ d = 5 \/ d = 6 \/ d = 7 \/
  d = 8 \/ d = 9 \/ d = 10 \/ d = 11 \/ d = 12 \/ d = 13 \/ d = 14 \/ d = 15.
Proof. lia. Qed.

Lemma hex_value_digit (d : Z) : 0 <= d < 16 -> hex_value (hex_digit d) = Some d.
Proof.
  intros H. pose proof (digit_cases d H) as C.
  repeat (destruct C as [-> | C]; [reflexivity|]). subst d. reflexivity.
Qed.

Lemma is_lower_hex_digit (d : Z) : 0 <= d < 16 -> is_lower_hex (hex_digit d) = true.
Proof.
  intros H. pose proof (digit_cases d H) as C.
  repeat (destruct C as [-> | C]; [reflexivity|]). subst d. reflexivity.
Qed.

(** What being a hexadecimal digit excludes. *)
Lemma hex_value_code (c : ascii) (d : Z) : hex_value c = Some d ->
  0 <= d < 16 /\
  (48 <= code c <= 57 \/ 97 <= code c <= 102 \/ 65 <= code c <= 70).
Proof.
  unfold hex_value. generalize (code c). intros n.
  destruct (Z.leb_spec 48 n), (Z.leb_spec n 57); cbn [andb];
    try (intros [= <-]; lia);
  destruct (Z.leb_spec 97 n), (Z.leb_spec n 102); cbn [andb];
    try (intros [= <-]; lia);
  destruct (Z.leb_spec 65 n), (Z.leb_spec n 70); cbn [andb];
    try (intros [= <-]; lia); discriminate.
Qed.

Lemma hex_char_not_space (c : ascii) (d : Z) :
  hex_value c = Some d -> is_space c = false /\ is_ascii_space c = false.
Proof.
  intros H. apply hex_value_code in H. unfold is_space, is_ascii_space.
  revert H. generalize (code c). intros n H.
  repeat match goal with
         | |- context [Z.leb ?a ?b] => destruct (Z.leb_spec a b)
         | |- context [Z.eqb ?a ?b] => destruct (Z.eqb_spec a b)
         end; cbn; try lia; auto.
Qed.

Lemma hex_char_not_underscore (c : ascii) (d : Z) :
  hex_value c = Some d -> is_underscore c = false.
Proof.
  intros H. apply hex_value_code in H. unfold is_underscore.
  destruct (Z.eqb_spec (code c) 95); [lia | reflexivity].
Qed.

Lemma split_sign_hex_char (c : ascii) (d : Z) (r : str) :
  hex_value c = Some d -> split_sign (c :: r) = (1, c :: r).
Proof.
  intros H. apply hex_value_code in H. unfold split_sign.
  destruct (Z.eqb_spec (code c) 43); [lia|].
  destruct (Z.eqb_spec (code c) 45); [lia|]. reflexivity.
Qed.

Lemma skip_prefix_hex_chars (c1 c2 : ascii) (d : Z) (r : str) :
  hex_value c2 = Some d -> skip_prefix (c1 :: c2 :: r) = c1 :: c2 :: r.
Proof.
  intros H. apply hex_value_code in H. unfold skip_prefix.
  destruct (Z.eqb_spec (code c2) 120); [lia|].
  destruct (Z.eqb_spec (code c2) 88); [lia|].
  rewrite andb_false_r. reflexivity.
Qed.

Lemma scan_digits_hex (ds : list Z) : forall n acc,
  Forall (fun d => 0 <= d < 16) ds ->
  scan_digits false n acc (map hex_digit ds)
  = Some ((List.length ds + n)%nat, digits_value ds acc, []).
Proof.
  induction ds as [|d ds IH]; intros n acc Hds; [reflexivity|].
  inversion Hds as [|? ? Hd Hds']; subst.
  cbn [map scan_digits].
  pose proof (hex_value_digit d Hd) as Hv.
  rewrite (hex_char_not_underscore _ _ Hv), Hv, IH by assumption.
  cbn [List.length digits_value fold_left].
  now rewrite Nat.add_succ_r.
Qed.

Lemma int16_digits (ds : list Z) :
  ds <> [] -> Forall (fun d => 0 <= d < 16) ds ->
  int16 (map hex_digit ds) = Ok (digits_value ds 0).
Proof.
  intros Hne Hds.
  destruct ds as [|d1 ds]; [congruence|].
  pose proof Hds as Hds0.
  inversion Hds as [|? ? Hd1 Hds']; subst.
  pose proof (hex_value_digit d1 Hd1) as Hv1.
  assert (Hpre : skip_prefix (map hex_digit (d1 :: ds)) = map hex_digit (d1 :: ds)).
  { destruct ds as [|d2 ds]; [reflexivity|].
    inversion Hds' as [|? ? Hd2 _]; subst.
    cbn [map]. eapply skip_prefix_hex_chars, hex_value_digit, Hd2. }
  unfold int16.
  replace (lstrip (map hex_digit (d1 :: ds))) with (map hex_digit (d1 :: ds))
    by (cbn [map lstrip]; now rewrite (proj1 (hex_char_not_space _ _ Hv1))).
  replace (split_sign (map hex_digit (d1 :: ds))) with (1, map hex_digit (d1 :: ds))
    by (cbn [map]; symmetry; eapply split_sign_hex_char, Hv1).
  rewrite Hpre, (scan_digits_hex _ _ _ Hds0).
  cbn [map]. rewrite (hex_char_not_underscore _ _ Hv1).
  cbn [List.length Nat.add lstrip]. now rewrite Z.mul_1_l.
Qed.

Lemma int16_hex_be16 (v : Z) : 0 <= v < 65536 -> int16 (hex (be16 v)) = Ok v.
Proof.
  intros Hv.
  change (hex (be16 v))
    with (map hex_digit [v / 256 / 16; (v / 256) mod 16; v mod 256 / 16; (v mod 256) mod 16]).
  rewrite int16_digits.
  - f_equal. unfold digits_value. cbn [fold_left].
    Z.div_mod_to_equations. lia.
  - discriminate.
  - repeat constructor; Z.div_mod_to_equations; lia.
Qed.

Lemma int16_hex_byte (b : Z) : 0 <= b < 256 -> int16 (hex_byte b) = Ok b.
Proof.
  intros Hb.
  change (hex_byte b) with (map hex_digit [b / 16; b mod 16]).
  rewrite int16_digits.
  - f_equal. unfold digits_value. cbn [fold_left].
    Z.div_mod_to_equations. lia.
  - discriminate.
  - repeat constructor; Z.div_mod_to_equations; lia.
Qed.

Lemma fromhex_hex (bs : bytes) :
  Forall (fun b => 0 <= b < 256) bs -> fromhex (hex bs) = Ok bs.
Proof.
  induction 1 as [|b bs Hb _ IH]; [reflexivity|].
  change (hex (b :: bs)) with (hex_digit (b / 16) :: hex_digit (b mod 16) :: hex bs).
  assert (H1 : 0 <= b / 16 < 16) by (Z.div_mod_to_equations; lia).
  assert (H2 : 0 <= b mod 16 < 16) by (Z.div_mod_to_equations; lia).
  pose proof (hex_value_digit _ H1) as V1. pose proof (hex_value_digit _ H2) as V2.
  cbn [fromhex]. rewrite (proj2 (hex_char_not_space _ _ V1)), V1, V2, IH.
  cbn [bind]. do 2 f_equal. Z.div_mod_to_equations. lia.
Qed.

Lemma hex_lowercase (bs : bytes) :
  Forall (fun b => 0 <= b < 256) bs -> forallb is_lower_hex (hex bs) = true.
Proof.
  induction 1 as [|b bs Hb _ IH]; [reflexivity|].
  change (hex (b :: bs)) with (hex_digit (b / 16) :: hex_digit (b mod 16) :: hex bs).
  cbn [forallb]. rewrite IH, !is_lower_hex_digit; [reflexivity| |];
    Z.div_mod_to_equations; lia.
Qed.

(** Masking and shifting as division and remainder. *)
Lemma land_255 (x : Z) : Z.land x 255 = x mod 256.
Proof. change 255 with (Z.ones 8). now rewrite Z.land_ones by lia. Qed.

Lemma shiftr_8 (x : Z) : Z.shiftr x 8 = x / 256.
Proof. now rewrite Z.shiftr_div_pow2 by lia. Qed.

Lemma is_byte_land (x : Z) : is_byte (Z.land x 255) = true.
Proof.
  rewrite land_255. unfold is_byte.
  pose proof (Z.mod_pos_bound x 256 eq_refl).
  apply andb_true_intro; split; [apply Z.leb_le | apply Z.ltb_lt]; lia.
Qed.

Lemma is_byte_iff (x : Z) : is_byte x = true <-> 0 <= x < 256.
Proof.
  unfold is_byte. rewrite andb_true_iff, Z.leb_le, Z.ltb_lt. reflexivity.
Qed.

(** ** Encoding a request *)

Section Encoding.

Variable crc16_modbus : bytes -> Z.

Lemma bytearray_ok (l : list Z) : forallb is_byte l = true -> bytearray l = Ok l.
Proof. unfold bytearray. now intros ->. Qed.

Lemma message_body_eq (u f a c : Z) : message_body u f a c = request_body u f a c.
Proof. unfold message_body, request_body. now rewrite !land_255, !shiftr_8. Qed.

Lemma request_body_bytes (u f a c : Z) :
  0 <= u < 256 -> 0 <= f < 256 -> forallb is_byte (request_body u f a c) = true.
Proof.
  intros Hu Hf. rewrite <- message_body_eq. unfold message_body. cbn [forallb].
  rewrite !is_byte_land.
  rewrite (proj2 (is_byte_iff u) Hu), (proj2 (is_byte_iff f) Hf). reflexivity.
Qed.

Lemma request_frame_bytes (t p u f a c : Z) :
  0 <= u < 256 -> 0 <= f < 256 ->
  Forall (fun b => 0 <= b < 256) (request_frame crc16_modbus t p u f a c).
Proof.
  intros Hu Hf. unfold request_frame, request_body.
  repeat (apply Forall_cons || apply Forall_nil || cbn [app]);
    try lia; apply Z.mod_pos_bound; lia.
Qed.

(** With unit id and function code in byte range, [create_request] returns
    the hexadecimal text of [request_frame]. *)
Lemma create_request_ok (t p u f a c : Z) :
  0 <= u < 256 -> 0 <= f < 256 ->
  create_request crc16_modbus t p u f a c
  = Ok (hex (request_frame crc16_modbus t p u f a c)).
Proof.
  intros Hu Hf. unfold create_request.
  rewrite message_body_eq, (bytearray_ok _ (request_body_bytes u f a c Hu Hf)).
  cbn [bind]. rewrite bytearray_ok by (cbn [forallb]; now rewrite !is_byte_land).
  cbn [bind]. unfold extend.
  rewrite (bytearray_ok _ (request_body_bytes u f a c Hu Hf)). cbn [bind].
  rewrite bytearray_ok by (cbn [forallb]; now rewrite !is_byte_land).
  cbn [bind]. unfold request_frame. now rewrite !land_255, !shiftr_8, <- app_assoc.
Qed.

(** A unit id or function code outside byte range makes [bytearray] raise. *)
Lemma create_request_raises (t p u f a c : Z) :
  ~ (0 <= u < 256 /\ 0 <= f < 256) ->
  create_request crc16_modbus t p u f a c = Raise (ValueError ByteOutOfRange).
Proof.
  intros H. unfold create_request, bytearray, message_body. cbn [forallb].
  destruct (is_byte u) eqn:Eu; [|reflexivity].
  destruct (is_byte f) eqn:Ef; [|reflexivity].
  apply is_byte_iff in Eu. apply is_byte_iff in Ef. tauto.
Qed.

(** C1. For every input whose unit id and function code are bytes (the other
    four fields being any integers), [create_request] returns 32 lowercase
    hexadecimal characters that encode the 16-byte frame
    [tidHi, tidLo, protoHi, protoLo, 0x00, 0x0A, 0xFF, 0x04], then the body
    [unitId, functionCode, addrHi, addrLo, countHi, countLo], then the
    checksum of exactly that body (frame bytes 8 to 13), low byte first. *)
Theorem create_request_layout (t p u f a c : Z) :
  0 <= u < 256 -> 0 <= f < 256 ->
  exists (s : str) (frame : bytes),
    create_request crc16_modbus t p u f a c = Ok s
    /\ len s = 32
    /\ forallb is_lower_hex s = true
    /\ fromhex s = Ok frame
    /\ len frame = 16
    /\ slice frame 0 4 = [(t / 256) mod 256; t mod 256; (p / 256) mod 256; p mod 256]
    /\ slice frame 4 8 = [0; 10; 255; 4]
    /\ slice frame 8 14
       = [u; f; (a / 256) mod 256; a mod 256; (c / 256) mod 256; c mod 256]
    /\ (exists lo hi, slice frame 14 16 = [lo; hi]
          /\ 0 <= lo < 256 /\ 0 <= hi < 256
          /\ lo + 256 * hi = crc16_modbus (slice frame 8 14) mod 65536).
Proof.
  intros Hu Hf.
  exists (hex (request_frame crc16_modbus t p u f a c)),
         (request_frame crc16_modbus t p u f a c).
  pose proof (request_frame_bytes t p u f a c Hu Hf) as Hb.
  split; [now apply create_request_ok|].
  split; [now rewrite len_hex|].
  split; [now apply hex_lowercase|].
  split; [now apply fromhex_hex|].
  split; [reflexivity|].
  split; [reflexivity|].
  split; [reflexivity|].
  split; [reflexivity|].
  exists (crc16_modbus (request_body u f a c) mod 256),
         ((crc16_modbus (request_body u f a c) / 256) mod 256).
  split; [reflexivity|].
  change (slice (request_frame crc16_modbus t p u f a c) 8 14)
    with (request_body u f a c).
  generalize (crc16_modbus (request_body u f a c)). intros crc.
  Z.div_mod_to_equations. lia.
Qed.

End Encoding.

Lemma create_request_layout_witness :
  (0 <= 1 < 256 /\ 0 <= 4 < 256)
  /\ exists s, create_request crc16_modbus_ref 1 1 1 4 0 1 = Ok s /\ len s = 32.
Proof.
  split; [lia|].
  destruct (create_request_layout crc16_modbus_ref 1 1 1 4 0 1) as (s & _ & Hs & Hl & _);
    [lia | lia |].
  exists s. split; assumption.
Defined.

Section Truncation.

Variable crc16_modbus : bytes -> Z.

Lemma request_frame_mod (t p u f a c : Z) :
  0 <= u < 256 -> 0 <= f < 256 ->
  request_frame crc16_modbus (t mod 2 ^ 16) (p mod 2 ^ 16) (u mod 2 ^ 8) (f mod 2 ^ 8)
    (a mod 2 ^ 16) (c mod 2 ^ 16)
  = request_frame crc16_modbus t p u f a c.
Proof.
  intros Hu Hf. change (2 ^ 16) with 65536. change (2 ^ 8) with 256.
  assert (E : forall x, (x mod 65536 / 256) mod 256 = (x / 256) mod 256
                        /\ (x mod 65536) mod 256 = x mod 256)
    by (intros x; split; Z.div_mod_to_equations; lia).
  unfold request_frame, request_body.
  rewrite (Z.mod_small u), (Z.mod_small f) by lia.
  rewrite !(proj1 (E _)), !(proj2 (E _)). reflexivity.
Qed.

(** C7, as amended.  The four 16-bit fields may be any integers: they are
    masked to their width, so the call succeeds and returns the frame of the
    inputs reduced modulo [2^16].  Unit id and function code are not masked:
    in byte range they are used as they are, outside it [bytearray] raises. *)
Theorem create_request_truncates (t p u f a c : Z) :
  (0 <= u < 256 /\ 0 <= f < 256 ->
   is_ok (create_request crc16_modbus t p u f a c) = true
   /\ create_request crc16_modbus t p u f a c
      = create_request crc16_modbus (t mod 2 ^ 16) (p mod 2 ^ 16) (u mod 2 ^ 8)
          (f mod 2 ^ 8) (a mod 2 ^ 16) (c mod 2 ^ 16))
  /\ (~ (0 <= u < 256 /\ 0 <= f < 256) ->
      create_request crc16_modbus t p u f a c = Raise (ValueError ByteOutOfRange)).
Proof.
  split.
  - intros [Hu Hf]. rewrite (create_request_ok crc16_modbus t p u f a c Hu Hf).
    split; [reflexivity|].
    rewrite create_request_ok by (apply Z.mod_pos_bound; lia).
    now rewrite request_frame_mod.
  - apply create_request_raises.
Qed.

End Truncation.

Lemma create_request_truncates_witness :
  (0 <= 1 < 256 /\ 0 <= 4 < 256)
  /\ create_request crc16_modbus_ref (-1) 65537 1 4 (65536 + 100) (-65533)
     = create_request crc16_modbus_ref ((-1) mod 2 ^ 16) (65537 mod 2 ^ 16)
         (1 mod 2 ^ 8) (4 mod 2 ^ 8) ((65536 + 100) mod 2 ^ 16) ((-65533) mod 2 ^ 16)
  /\ create_request crc16_modbus_ref 1 1 257 4 0 1 = Raise (ValueError ByteOutOfRange).
Proof.
  split; [lia|]. split.
  - apply (create_request_truncates crc16_modbus_ref (-1) 65537 1 4 (65536 + 100) (-65533)).
    lia.
  - apply (create_request_truncates crc16_modbus_ref 1 1 257 4 0 1). lia.
Defined.

(** C7 as stated fails: a unit id of 257 is not truncated to 1, the call
    raises, while the call on the reduced inputs returns a frame. *)
Lemma create_request_unit_id_not_masked :
  create_request crc16_modbus_ref 1 1 257 4 0 1 = Raise (ValueError ByteOutOfRange)
  /\ create_request crc16_modbus_ref (1 mod 2 ^ 16) (1 mod 2 ^ 16) (257 mod 2 ^ 8)
       (4 mod 2 ^ 8) (0 mod 2 ^ 16) (1 mod 2 ^ 16)
     = Ok (lit "00010001000aff0401040000000131ca")
  /\ create_request crc16_modbus_ref 1 1 257 4 0 1
     <> create_request crc16_modbus_ref (1 mod 2 ^ 16) (1 mod 2 ^ 16) (257 mod 2 ^ 8)
          (4 mod 2 ^ 8) (0 mod 2 ^ 16) (1 mod 2 ^ 16).
Proof.
  assert (E1 : create_request crc16_modbus_ref 1 1 257 4 0 1
               = Raise (ValueError ByteOutOfRange)) by (vm_compute; reflexivity).
  assert (E2 : create_request crc16_modbus_ref (1 mod 2 ^ 16) (1 mod 2 ^ 16)
                 (257 mod 2 ^ 8) (4 mod 2 ^ 8) (0 mod 2 ^ 16) (1 mod 2 ^ 16)
               = Ok (lit "00010001000aff0401040000000131ca"))
    by (vm_compute; reflexivity).
  split; [exact E1|]. split; [exact E2|]. rewrite E1, E2. discriminate.
Qed.

(** ** The register range of a request *)

Lemma fold_left_snoc {A B} (g : A -> B) (l : list A) : forall acc,
  fold_left (fun registers i => registers ++ [g i]) l acc = acc ++ map g l.
Proof.
  induction l as [|x l IH]; intros acc; cbn [fold_left map].
  - now rewrite app_nil_r.
  - now rewrite IH, <- app_assoc.
Qed.

Lemma len_range (n : Z) : 0 <= n -> len (range n) = n.
Proof. intros H. unfold len, range. rewrite length_map, length_seq. lia. Qed.

Lemma nth_range (n i : Z) : 0 <= i < n -> nth (Z.to_nat i) (range n) 0 = i.
Proof.
  intros H. unfold range.
  change (nth (Z.to_nat i) (map Z.of_nat (seq 0 (Z.to_nat n))) (Z.of_nat 0%nat) = i).
  rewrite map_nth, seq_nth by lia. lia.
Qed.

Section RegisterRange.

Variable crc16_modbus : bytes -> Z.

(** The frame of in-range fields, cut where [get_registers_from_request]
    reads it. *)
Lemma request_frame_split (t p u f a c : Z) :
  0 <= a < 65536 -> 0 <= c < 65536 ->
  exists head tail,
    len head = 6 /\
    request_frame crc16_modbus t p u f a c
    = head ++ [255; 4; u; f] ++ be16 a ++ be16 c ++ tail.
Proof.
  intros Ha Hc.
  eexists [_; _; _; _; _; _], [_; _]. split; [reflexivity|].
  unfold request_frame, request_body, be16. cbn [app].
  rewrite (Z.mod_small (a / 256)), (Z.mod_small (c / 256))
    by (Z.div_mod_to_equations; lia).
  reflexivity.
Qed.

(** C5. For fields that fit their widths, the registers extracted from the
    request built by [create_request] are [registerCount] consecutive
    addresses starting at [registerAddress], in order. *)
Theorem get_registers_of_create_request (t p u f a c : Z) :
  0 <= u < 256 -> 0 <= f < 256 -> 0 <= a < 65536 -> 0 <= c < 65536 ->
  exists (request : str) (registers : list Z),
    create_request crc16_modbus t p u f a c = Ok request
    /\ get_registers_from_request request = Ok registers
    /\ registers = map (fun i => a + i) (range c)
    /\ len registers = c
    /\ (forall i, 0 <= i < c -> nth (Z.to_nat i) registers 0 = a + i).
Proof.
  intros Hu Hf Ha Hc.
  exists (hex (request_frame crc16_modbus t p u f a c)),
         (map (fun i => a + i) (range c)).
  split; [now apply create_request_ok|].
  split; [|split; [reflexivity|split]].
  - destruct (request_frame_split t p u f a c Ha Hc) as (head & tail & Hh & ->).
    unfold get_registers_from_request.
    rewrite !hex_app.
    rewrite slice_from_app by (rewrite len_hex, Hh; reflexivity).
    rewrite (slice_mid (hex [255; 4; u; f]) (hex (be16 a))) by reflexivity.
    rewrite int16_hex_be16 by assumption. cbn [bind].
    rewrite (app_assoc (hex [255; 4; u; f])).
    rewrite (slice_mid (hex [255; 4; u; f] ++ hex (be16 a)) (hex (be16 c)))
      by reflexivity.
    rewrite int16_hex_be16 by assumption. cbn [bind].
    now rewrite fold_left_snoc.
  - unfold len. rewrite length_map. apply len_range. lia.
  - intros i Hi.
    rewrite (nth_indep _ 0 ((fun j => a + j) 0)).
    + rewrite map_nth, nth_range by assumption. reflexivity.
    + pose proof (len_range c (proj1 Hc)) as Hl. unfold len in Hl.
      rewrite length_map. lia.
Qed.

End RegisterRange.

Lemma get_registers_of_create_request_witness :
  (0 <= 1 < 256 /\ 0 <= 4 < 256 /\ 0 <= 100 < 65536 /\ 0 <= 3 < 65536)
  /\ exists request,
       create_request crc16_modbus_ref 1 1 1 4 100 3 = Ok request
       /\ get_registers_from_request request = Ok [100; 101; 102].
Proof.
  split; [lia|].
  destruct (get_registers_of_create_request crc16_modbus_ref 1 1 1 4 100 3)
    as (request & registers & Hreq & Hget & -> & _); [lia | lia | lia | lia |].
  exists request. split; [exact Hreq | exact Hget].
Defined.

(** ** Decoding a response *)

Lemma str_eqb_eq (s t : str) : str_eqb s t = true <-> s = t.
Proof.
  revert t. induction s as [|a s IH]; intros [|b t]; cbn [str_eqb];
    try (split; [discriminate | congruence]); [tauto|].
  rewrite andb_true_iff, Ascii.eqb_eq, IH. split; [intros [-> ->] | intros [= -> ->]]; auto.
Qed.

Lemma str_eqb_neq (s t : str) : s <> t -> str_eqb s t = false.
Proof.
  intros H. destruct (str_eqb s t) eqn:E; [|reflexivity].
  apply str_eqb_eq in E. contradiction.
Qed.

Lemma hex_words_cons (v : Z) (vs : list Z) :
  hex (flat_map be16 (v :: vs)) = hex (be16 v) ++ hex (flat_map be16 vs).
Proof. cbn [flat_map]. apply hex_app. Qed.

Lemma len_hex_words (vs : list Z) : len (hex (flat_map be16 vs)) = 4 * len vs.
Proof.
  induction vs as [|v vs IH]; [reflexivity|].
  rewrite hex_words_cons, len_app, IH. unfold len. cbn [List.length]. 
  change (Z.of_nat (List.length (hex (be16 v)))) with 4. lia.
Qed.

(** The word at index [i] of the data, as the loop body slices it. *)
Lemma slice_word (pre : list Z) (v : Z) (post : str) :
  slice (hex (flat_map be16 pre) ++ hex (be16 v) ++ post)
    (len pre * 4) ((len pre + 1) * 4)
  = hex (be16 v).
Proof.
  apply slice_mid; [rewrite len_hex_words; lia|].
  change (len (hex (be16 v))) with 4. lia.
Qed.

Lemma reads_words_unsigned : reads_words (lit "UnsignedInt") VInt.
Proof.
  intros pre v post Hv. unfold decode_value.
  change (str_eqb (lit "UnsignedInt") (lit "Int")) with false.
  change (str_eqb (lit "UnsignedInt") (lit "UnsignedInt")) with true.
  cbv iota. rewrite slice_word, int16_hex_be16 by assumption. reflexivity.
Qed.

Lemma reads_words_signed :
  reads_words (lit "Int") (fun v => VInt (if v >=? 32768 then v - 65536 else v)).
Proof.
  intros pre v post Hv. unfold decode_value.
  change (str_eqb (lit "Int") (lit "Int")) with true.
  cbv iota. rewrite slice_word, int16_hex_be16 by assumption. reflexivity.
Qed.

Lemma decode_loop_words (data_format : str) (g : Z -> value) :
  reads_words data_format g ->
  forall vs pre post acc,
    Forall (fun v => 0 <= v < 65536) vs ->
    decode_loop data_format
      (hex (flat_map be16 pre) ++ hex (flat_map be16 vs) ++ post)
      (map Z.of_nat (seq (List.length pre) (List.length vs))) acc
    = Ok (acc ++ map g vs).
Proof.
  intros Hg. induction vs as [|v vs IH]; intros pre post acc Hvs.
  - cbn. now rewrite app_nil_r.
  - inversion Hvs as [|? ? Hv Hvs']; subst.
    cbn [List.length seq map decode_loop].
    rewrite hex_words_cons, <- app_assoc.
    change (Z.of_nat (List.length pre)) with (len pre).
    rewrite Hg by assumption. cbn [bind].
    specialize (IH (pre ++ [v]) post (acc ++ [g v]) Hvs').
    rewrite flat_map_app, hex_app, <- app_assoc in IH.
    change (hex (flat_map be16 [v])) with (hex (be16 v)) in IH.
    rewrite length_app, Nat.add_1_r in IH.
    rewrite IH, <- app_assoc. reflexivity.
Qed.

(** Decoding a synthetic response of at most 127 words with a format that
    reads words. *)
Lemma decode_synthetic (data_format : str) (g : Z -> value)
  (header rtu_head : bytes) (values : list Z) :
  reads_words data_format g ->
  len header = 4 -> len rtu_head = 4 ->
  Forall (fun v => 0 <= v < 65536) values -> len values <= 127 ->
  decode_modbus_response (synthetic_response header rtu_head values) (len values)
    data_format
  = Ok (map g values).
Proof.
  intros Hg Hh Hr Hvs Hn.
  pose proof (len_nonneg values) as Hn0.
  unfold decode_modbus_response, synthetic_response.
  set (n := len values) in *.
  rewrite !hex_app.
  rewrite (slice_mid (hex header) (hex (be16 (5 + 2 * n))))
    by (rewrite ?len_hex, ?Hh; reflexivity).
  rewrite int16_hex_be16 by lia. cbn [bind].
  rewrite (app_assoc (hex header)).
  rewrite slice_tail.
  2: { rewrite len_app, len_hex, Hh. reflexivity. }
  2: { rewrite !len_app, len_hex, Hr, len_hex_words. fold n.
       change (len (hex [2 * n])) with 2. lia. }
  rewrite (slice_mid (hex rtu_head) (hex [2 * n]))
    by (rewrite ?len_hex, ?Hr; reflexivity).
  change (hex [2 * n]) with (hex_byte (2 * n)).
  rewrite int16_hex_byte by lia. cbn [bind].
  rewrite (app_assoc (hex rtu_head)).
  rewrite slice_tail.
  2: { rewrite len_app, len_hex, Hr. reflexivity. }
  2: { rewrite len_hex_words. fold n. lia. }
  pose proof (decode_loop_words data_format g Hg values [] [] [] Hvs) as H.
  cbn [flat_map hex app List.length] in H. rewrite app_nil_r in H.
  unfold range, n, len. rewrite Nat2Z.id. exact H.
Qed.

(** C3. Decoding with format [UnsignedInt] undoes the construction of a
    well-formed response: for N values in [0, 65536), the frame with the
    right length field, a declared data-byte count of 2N (which the one-byte
    field holds for N up to 127) and the values as big-endian words decodes,
    with registerCount = N, to the same values in the same order. *)
Theorem decode_unsigned_left_inverse (header rtu_head : bytes) (values : list Z) :
  len header = 4 -> len rtu_head = 4 ->
  Forall (fun v => 0 <= v < 65536) values -> len values <= 127 ->
  decode_modbus_response (synthetic_response header rtu_head values) (len values)
    (lit "UnsignedInt")
  = Ok (map VInt values).
Proof. apply decode_synthetic, reads_words_unsigned. Qed.

Lemma decode_unsigned_left_inverse_witness :
  (len [0; 1; 0; 1] = 4 /\ len [255; 4; 1; 3] = 4
   /\ Forall (fun v => 0 <= v < 65536) [230; 65535; 0] /\ len [230; 65535; 0] <= 127)
  /\ decode_modbus_response (lit "000100010011ff0401030600e6ffff0000") 3
       (lit "UnsignedInt")
     = Ok [VInt 230; VInt 65535; VInt 0].
Proof.
  assert (H : Forall (fun v => 0 <= v < 65536) [230; 65535; 0])
    by (repeat constructor; lia).
  split.
  - repeat split; try reflexivity; try exact H. discriminate.
  - apply (decode_unsigned_left_inverse [0; 1; 0; 1] [255; 4; 1; 3] [230; 65535; 0]);
      try reflexivity; try exact H. discriminate.
Defined.

(** C4. Decoding with format [Int] reads each data word [v] as unsigned and
    yields [v - 65536] when [v >= 32768], [v] otherwise; so 0xFFFF decodes
    to -1, 0x8000 to -32768, 0x7FFF to 32767 and 0x0000 to 0. *)
Theorem decode_int_folds_sign (header rtu_head : bytes) (values : list Z) :
  len header = 4 -> len rtu_head = 4 ->
  Forall (fun v => 0 <= v < 65536) values -> len values <= 127 ->
  decode_modbus_response (synthetic_response header rtu_head values) (len values)
    (lit "Int")
  = Ok (map (fun v => VInt (if v >=? 32768 then v - 65536 else v)) values)
  /\ decode_modbus_response
       (synthetic_response header rtu_head [65535; 32768; 32767; 0]) 4 (lit "Int")
     = Ok [VInt (-1); VInt (-32768); VInt 32767; VInt 0].
Proof.
  intros Hh Hr Hvs Hn. split.
  - now apply decode_synthetic; [apply reads_words_signed | ..].
  - apply (decode_synthetic (lit "Int") _ header rtu_head [65535; 32768; 32767; 0]
             reads_words_signed Hh Hr).
    + repeat constructor; lia.
    + discriminate.
Qed.

(** The four words of the spec: 0xFFFF, 0x8000, 0x7FFF and 0x0000. *)
Lemma decode_int_folds_sign_witness :
  (len [0; 1; 0; 1] = 4 /\ len [255; 4; 1; 3] = 4
   /\ Forall (fun v => 0 <= v < 65536) [65535; 32768; 32767; 0]
   /\ len [65535; 32768; 32767; 0] <= 127)
  /\ decode_modbus_response (lit "00010001000dff04010308ffff80007fff0000") 4 (lit "Int")
     = Ok [VInt (-1); VInt (-32768); VInt 32767; VInt 0].
Proof.
  assert (H : Forall (fun v => 0 <= v < 65536) [65535; 32768; 32767; 0])
    by (repeat constructor; lia).
  split.
  - repeat split; try reflexivity; try exact H. discriminate.
  - apply (decode_int_folds_sign [0; 1; 0; 1] [255; 4; 1; 3] [65535; 32768; 32767; 0]);
      try reflexivity; try exact H. discriminate.
Defined.

(** *** Formats that do not decode *)

Lemma range_pos (n : Z) : 1 <= n -> exists rest, range n = 0 :: rest.
Proof.
  intros H. unfold range. destruct (Z.to_nat n) as [|k] eqn:E; [lia|].
  cbn [seq map]. eauto.
Qed.

Lemma fromhex_len_bound (n : nat) : forall (s : str) (b : bytes),
  (List.length s <= n)%nat -> fromhex s = Ok b -> 2 * len b <= len s.
Proof.
  induction n as [|n IH]; intros s b Hn.
  - destruct s; [|cbn in Hn; lia]. cbn. intros [= <-]. reflexivity.
  - destruct s as [|c r]; [cbn; intros [= <-]; reflexivity|].
    cbn [List.length] in Hn. cbn [fromhex].
    destruct (is_ascii_space c).
    + intros H. apply IH in H; [|lia]. unfold len in *. cbn [List.length]. lia.
    + destruct (hex_value c); [|discriminate].
      destruct r as [|c2 r2]; [discriminate|].
      destruct (hex_value c2); [|discriminate].
      destruct (fromhex r2) as [bs|] eqn:E; [|discriminate].
      cbn [bind]. intros [= <-]. apply IH in E; [|cbn [List.length] in Hn; lia].
      unfold len in *. cbn [List.length]. lia.
Qed.

Lemma len_slice_bound {A} (l : list A) (lo hi : Z) :
  0 <= lo <= hi -> len (slice l lo hi) <= hi - lo.
Proof.
  intros H. unfold slice, clip_index.
  destruct (Z.ltb_spec lo 0); [lia|]. destruct (Z.ltb_spec hi 0); [lia|].
  pose proof (firstn_le_length
                (Z.to_nat (Z.min hi (len l) - Z.min lo (len l)))
                (skipn (Z.to_nat (Z.min lo (len l))) l)) as Hf.
  unfold len at 1. lia.
Qed.

(** The declared number of data bytes is read from two characters, so it
    is at most 255: a frame can declare the data of at most 127 words. *)
Lemma in_all_chars (c : ascii) : In c all_chars.
Proof.
  unfold all_chars. rewrite <- (ascii_nat_embedding c).
  apply in_map, in_seq. pose proof (nat_ascii_bounded c). lia.
Qed.

Lemma byte_count_at_most_255 (rtu_payload : str) (num_data_bytes : Z) :
  int16 (slice rtu_payload 8 10) = Ok num_data_bytes -> num_data_bytes <= 255.
Proof.
  pose proof (len_slice_bound rtu_payload 8 10 ltac:(lia)) as Hl.
  set (fits := fun s => match int16 s with Ok v => v <=? 255 | Raise _ => true end).
  assert (H1 : forallb (fun c1 => fits [c1]) all_chars = true)
    by (vm_compute; reflexivity).
  assert (H2 : forallb (fun c1 => forallb (fun c2 => fits [c1; c2]) all_chars) all_chars
               = true) by (vm_compute; reflexivity).
  assert (H : fits (slice rtu_payload 8 10) = true).
  { destruct (slice rtu_payload 8 10) as [|c1 [|c2 [|c3 r]]].
    - reflexivity.
    - exact (proj1 (forallb_forall _ _) H1 c1 (in_all_chars c1)).
    - exact (proj1 (forallb_forall _ _)
               (proj1 (forallb_forall _ _) H2 c1 (in_all_chars c1)) c2 (in_all_chars c2)).
    - unfold len in Hl. cbn [List.length] in Hl. lia. }
  unfold fits in H. intros E. rewrite E in H. now apply Z.leb_le.
Qed.

(** The unpack of what [bytes.fromhex] makes of a four-character slice. *)
Lemma unpack_of_slice_raises (data : str) (i : Z) (b : bytes) :
  0 <= i -> fromhex (slice data (i * 4) ((i + 1) * 4)) = Ok b ->
  len b <= 2 /\ struct_unpack_f b = Raise StructError.
Proof.
  intros Hi Hb.
  apply (fromhex_len_bound _ _ _ (le_n _)) in Hb.
  pose proof (len_slice_bound data (i * 4) ((i + 1) * 4)) as Hs.
  assert (Hl : len b <= 2) by lia. split; [exact Hl|].
  destruct b as [|b0 [|b1 [|b2 [|b3 [|b4 b]]]]]; try reflexivity;
    unfold len in Hl; cbn [List.length] in Hl; lia.
Qed.

(** C9. With format [Float] and registerCount >= 1 the call never returns:
    the loop body slices four hexadecimal characters, which make at most
    two bytes, and the unpack of a float, which needs exactly four, raises
    (unless an earlier conversion has raised already). *)
Theorem decode_float_never_returns (response : str) (register_count : Z) :
  1 <= register_count ->
  is_ok (decode_modbus_response response register_count (lit "Float")) = false
  /\ (forall data i b,
        0 <= i -> fromhex (slice data (i * 4) ((i + 1) * 4)) = Ok b ->
        len b <= 2 /\ struct_unpack_f b = Raise StructError).
Proof.
  intros Hrc. split; [|apply unpack_of_slice_raises].
  unfold decode_modbus_response.
  destruct (int16 (slice response 8 12)) as [length|]; [|reflexivity]. cbn [bind].
  destruct (int16 _) as [num_data_bytes|]; [|reflexivity]. cbn [bind].
  destruct (range_pos register_count Hrc) as (rest & ->).
  cbn [decode_loop]. unfold decode_value.
  change (str_eqb (lit "Float") (lit "Int")) with false.
  change (str_eqb (lit "Float") (lit "UnsignedInt")) with false.
  change (str_eqb (lit "Float") (lit "Float")) with true. cbv iota.
  destruct (fromhex _) as [b|] eqn:E; [|reflexivity]. cbn [bind].
  apply (unpack_of_slice_raises _ 0 b (Z.le_refl 0)) in E. now rewrite (proj2 E).
Qed.

Lemma decode_float_never_returns_witness :
  1 <= 1
  /\ decode_modbus_response (lit "000100010007ff040103023f80") 1 (lit "Float")
     = Raise StructError.
Proof.
  split; [lia|].
  pose proof (proj1 (decode_float_never_returns (lit "000100010007ff040103023f80") 1
                       ltac:(lia))) as H.
  destruct (decode_modbus_response (lit "000100010007ff040103023f80") 1 (lit "Float"))
    as [v|e] eqn:E; [discriminate H|].
  vm_compute in E. injection E as <-. reflexivity.
Defined.

(** C6, as amended.  With registerCount >= 1 a format other than [Int],
    [UnsignedInt] and [Float] never yields values: the call raises, and what
    it raises is the unsupported-format error whenever the length field and
    the data-byte count of the response convert. *)
Theorem decode_unsupported_format (response : str) (register_count : Z)
  (data_format : str) :
  data_format <> lit "Int" -> data_format <> lit "UnsignedInt" ->
  data_format <> lit "Float" -> 1 <= register_count ->
  is_ok (decode_modbus_response response register_count data_format) = false
  /\ (forall length num_data_bytes,
        int16 (slice response 8 12) = Ok length ->
        int16 (slice (slice response 12 (12 + length * 2)) 8 10) = Ok num_data_bytes ->
        decode_modbus_response response register_count data_format
        = Raise (ValueError (UnsupportedDataFormat data_format))).
Proof.
  intros H1 H2 H3 Hrc.
  assert (Hv : forall data i, decode_value data_format data i
                              = Raise (ValueError (UnsupportedDataFormat data_format))).
  { intros data i. unfold decode_value.
    now rewrite !str_eqb_neq by assumption. }
  destruct (range_pos register_count Hrc) as (rest & Hrange).
  unfold decode_modbus_response. rewrite Hrange. split.
  - destruct (int16 (slice response 8 12)) as [length|]; [|reflexivity]. cbn [bind].
    destruct (int16 _) as [num_data_bytes|]; [|reflexivity]. cbn [bind].
    cbn [decode_loop]. now rewrite Hv.
  - intros length num_data_bytes -> . cbn [bind]. intros ->. cbn [bind].
    cbn [decode_loop]. now rewrite Hv.
Qed.

Lemma decode_unsupported_format_witness :
  (lit "Double" <> lit "Int" /\ lit "Double" <> lit "UnsignedInt"
   /\ lit "Double" <> lit "Float" /\ 1 <= 2)
  /\ decode_modbus_response (lit "000100010009ff040103043f800000") 2 (lit "Double")
     = Raise (ValueError (UnsupportedDataFormat (lit "Double"))).
Proof.
  split; [repeat split; discriminate|].
  eapply (decode_unsupported_format (lit "000100010009ff040103043f800000") 2
            (lit "Double")); try discriminate; reflexivity.
Defined.

(** C6 as stated fails: with registerCount = 0 the format is never looked at
    and the call returns the empty list; and a response whose length field
    does not convert raises the conversion's error, not the format's. *)
Lemma decode_unsupported_format_not_checked :
  decode_modbus_response (lit "000100010009ff040103043f800000") 0 (lit "Double") = Ok []
  /\ decode_modbus_response (lit "0001") 1 (lit "Double")
     = Raise (ValueError InvalidLiteral).
Proof. split; vm_compute; reflexivity. Qed.


(** ** The exchange over an accepted connection *)

Lemma int_from_bytes_big_4_6 (response : bytes) :
  6 <= len response ->
  int_from_bytes_big (slice response 4 6)
  = nth 4 response 0 * 256 + nth 5 response 0.
Proof.
  intros H.
  destruct response as [|b0 [|b1 [|b2 [|b3 [|b4 [|b5 tail]]]]]];
    try (unfold len in H; cbn [List.length] in H; lia).
  change (b0 :: b1 :: b2 :: b3 :: b4 :: b5 :: tail)
    with ([b0; b1; b2; b3] ++ [b4; b5] ++ tail).
  rewrite slice_mid by reflexivity. reflexivity.
Qed.

Lemma recv_rest_chunks (expected_length : Z) (chunks : list bytes) :
  forall response,
  exists k : nat,
    (k <= List.length chunks)%nat
    /\ snd (recv_rest expected_length response (map RecvData chunks))
       = Some (response ++ List.concat (firstn k chunks))
    /\ (forall j, (j < k)%nat ->
          nth j chunks [] <> []
          /\ len (response ++ List.concat (firstn j chunks)) < expected_length)
    /\ (expected_length <= len (response ++ List.concat (firstn k chunks))
        \/ nth k chunks [] = []).
Proof.
  induction chunks as [|chunk chunks IH]; intros response.
  - exists 0%nat. cbn [map recv_rest firstn List.concat nth List.length]. rewrite app_nil_r.
    split; [lia|]. split; [now destruct (len response <? expected_length)|].
    split; [lia | now right].
  - cbn [map recv_rest].
    destruct (Z.ltb_spec (len response) expected_length) as [Hlt|Hge].
    + destruct chunk as [|b chunk].
      * exists 0%nat. cbn [firstn List.concat nth List.length snd]. rewrite app_nil_r.
        split; [lia|]. split; [reflexivity|]. split; [lia | now right].
      * destruct (IH (response ++ b :: chunk)) as (k & Hk & Hres & Hbefore & Hstop).
        exists (S k). cbn [firstn List.concat List.length].
        rewrite app_assoc.
        split; [lia|]. split.
        { destruct (recv_rest _ _ _) as [log r]. exact Hres. }
        split; [|exact Hstop].
        intros [|j] Hj.
        { cbn [nth firstn List.concat]. rewrite app_nil_r. split; [discriminate | exact Hlt]. }
        { cbn [nth firstn List.concat]. rewrite app_assoc. apply Hbefore. lia. }
    + exists 0%nat. cbn [firstn List.concat nth List.length snd]. rewrite app_nil_r.
      split; [lia|]. split; [reflexivity|]. split; [lia | left; lia].
Qed.

(** C8. Over the chunks that the connection delivers, the exchange writes
    the request and reads a first chunk.  A first chunk of fewer than 6
    bytes is the whole response.  Otherwise the expected length is the
    big-endian value of bytes 4 and 5 plus 6, and the response is the first
    chunk followed by the next [k] chunks, where every chunk taken was
    non-empty and was read while the accumulated length was still short, and
    reading stopped because the expected length was reached or because the
    read after them was empty.  In both cases the bytes accumulated are
    returned, and a short accumulation is not an error. *)
Theorem exchange_reads_declared_length (command_bytes : bytes) (chunks : list bytes) :
  let c := {| sendall_raises := false; recvs := map RecvData chunks |} in
  let first := hd [] chunks in
  let rest := tl chunks in
  (exists log, fst (exchange command_bytes c)
               = TcpSendall command_bytes :: TcpRecv 1024 :: log)
  /\ (len first < 6 -> snd (exchange command_bytes c) = Some first)
  /\ (6 <= len first ->
      let expected_length := nth 4 first 0 * 256 + nth 5 first 0 + 6 in
      exists k : nat,
        (k <= List.length rest)%nat
        /\ snd (exchange command_bytes c) = Some (first ++ List.concat (firstn k rest))
        /\ (forall j, (j < k)%nat ->
              nth j rest [] <> []
              /\ len (first ++ List.concat (firstn j rest)) < expected_length)
        /\ (expected_length <= len (first ++ List.concat (firstn k rest))
            \/ nth k rest [] = [])).
Proof.
  intros c first rest. unfold exchange. cbn [sendall_raises recvs c].
  assert (E : recv (map RecvData chunks) = (Some first, map RecvData rest))
    by (now destruct chunks).
  rewrite E.
  destruct (Z.geb_spec (len first) 6) as [Hge|Hlt].
  - pose proof (recv_rest_chunks (nth 4 first 0 * 256 + nth 5 first 0 + 6) rest first)
      as (k & Hk & Hres & Hbefore & Hstop).
    rewrite int_from_bytes_big_4_6 by lia.
    destruct (recv_rest _ first (map RecvData rest)) as [log r].
    split; [now exists log|]. split; [lia|].
    intros _. exists k. auto.
  - split; [now exists []|]. split; [reflexivity | lia].
Qed.

Lemma exchange_reads_declared_length_witness :
  (len [1; 2; 3] < 6 /\ 6 <= len [0; 1; 0; 1; 0; 5; 255])
  /\ snd (exchange [1] {| sendall_raises := false; recvs := map RecvData [[1; 2; 3]] |})
     = Some [1; 2; 3]
  /\ exists k : nat,
       snd (exchange [1]
              {| sendall_raises := false;
                 recvs := map RecvData [[0; 1; 0; 1; 0; 5; 255]; [4]; []; [7; 7; 7]] |})
       = Some ([0; 1; 0; 1; 0; 5; 255] ++ List.concat (firstn k [[4]; []; [7; 7; 7]]))
       /\ (0 * 256 + 5 + 6
           <= len ([0; 1; 0; 1; 0; 5; 255] ++ List.concat (firstn k [[4]; []; [7; 7; 7]]))
           \/ nth k [[4]; []; [7; 7; 7]] [] = []).
Proof.
  split; [split; [reflexivity | discriminate]|]. split.
  - apply (exchange_reads_declared_length [1] [[1; 2; 3]]). reflexivity.
  - destruct (exchange_reads_declared_length [1]
                [[0; 1; 0; 1; 0; 5; 255]; [4]; []; [7; 7; 7]])
      as (_ & _ & H).
    destruct H as (k & _ & Hres & _ & Hstop); [discriminate|].
    exists k. split; [exact Hres | exact Hstop].
Defined.

(** ** The retry loop *)

Section Retry.

Variable self : ModbusClient.
Variable command_bytes : bytes.
Variable env : Z -> attempt_env.


Lemma attempt_result_exchanged (e : attempt_env) :
  snd (attempt self command_bytes e)
  = match exchanged command_bytes e with
    | Some response => Returned (hex response)
    | None => Continue
    end.
Proof.
  unfold attempt, exchanged.
  destruct (udp e); cbn [send_udp_discovery negb snd]; try reflexivity.
  destruct (tcp e) as [| | |c]; try reflexivity.
  destruct (exchange command_bytes c) as [log [response|]]; reflexivity.
Qed.

(** An attempt yields no response exactly when it fails at discovery, at
    accepting the connection, or during the exchange. *)
Lemma exchanged_none_iff (e : attempt_env) :
  exchanged command_bytes e = None
  <-> udp e <> UdpAnswered
      \/ (tcp e = BindRaises \/ tcp e = ListenRaises \/ tcp e = AcceptRaises)
      \/ (exists c, tcp e = Accepted c /\ snd (exchange command_bytes c) = None).
Proof.
  unfold exchanged. split.
  - destruct (udp e); [left; discriminate | left; discriminate |].
    destruct (tcp e) as [| | |c]; auto. intros H. right. right. eauto.
  - intros [H | [[H | [H | H]] | (c & H & Hx)]].
    + destruct (udp e); try reflexivity. contradiction.
    + rewrite H. now destruct (udp e).
    + rewrite H. now destruct (udp e).
    + rewrite H. now destruct (udp e).
    + rewrite H. now destruct (udp e).
Qed.

Lemma hex_empty (b : bytes) : hex b = [] -> b = [].
Proof. destruct b; [reflexivity | discriminate]. Qed.

Lemma send_loop_step (k : Z) (rest : list Z) :
  send_loop self command_bytes env (k :: rest)
  = match exchanged command_bytes (env k) with
    | Some response => (attempt_ops self command_bytes env k, hex response)
    | None =>
        (attempt_ops self command_bytes env k ++ fst (send_loop self command_bytes env rest),
         snd (send_loop self command_bytes env rest))
    end.
Proof.
  cbn [send_loop]. unfold attempt_ops.
  pose proof (attempt_result_exchanged (env k)) as H.
  destruct (attempt self command_bytes (env k)) as [log r]. cbn [fst snd] in *.
  rewrite H. destruct (exchanged command_bytes (env k)); [reflexivity|].
  now destruct (send_loop self command_bytes env rest).
Qed.

Lemma send_loop_all_fail (m : nat) : forall s : nat,
  (forall j, (s <= j < s + m)%nat -> exchanged command_bytes (env (Z.of_nat j)) = None) ->
  send_loop self command_bytes env (attempts s m)
  = (List.concat (map (attempt_ops self command_bytes env) (attempts s m)), []).
Proof.
  induction m as [|m IH]; intros s H; [reflexivity|].
  unfold attempts in *. cbn [seq map List.concat]. rewrite send_loop_step.
  rewrite H by lia. rewrite IH by (intros j Hj; apply H; lia). reflexivity.
Qed.

Lemma send_loop_first_success (m : nat) : forall (s k : nat) (response : bytes),
  (s <= k < s + m)%nat ->
  (forall j, (s <= j < k)%nat -> exchanged command_bytes (env (Z.of_nat j)) = None) ->
  exchanged command_bytes (env (Z.of_nat k)) = Some response ->
  send_loop self command_bytes env (attempts s m)
  = (List.concat (map (attempt_ops self command_bytes env) (attempts s (S k - s))), hex response).
Proof.
  induction m as [|m IH]; intros s k response Hk Hbefore Hat; [lia|].
  unfold attempts in *. cbn [seq map]. rewrite send_loop_step.
  destruct (Nat.eq_dec s k) as [->|Hne].
  - rewrite Hat. replace (S k - k)%nat with 1%nat by lia.
    cbn [seq map List.concat]. now rewrite app_nil_r.
  - rewrite Hbefore by lia.
    rewrite (IH (S s) k response) by (try assumption; try lia; intros; apply Hbefore; lia).
    replace (S k - s)%nat with (S (S k - S s)) by lia.
    reflexivity.
Qed.

Lemma send_loop_empty (m : nat) : forall s : nat,
  snd (send_loop self command_bytes env (attempts s m)) = [] ->
  (forall j, (s <= j < s + m)%nat -> exchanged command_bytes (env (Z.of_nat j)) = None)
  \/ exists k, (s <= k < s + m)%nat
       /\ (forall j, (s <= j < k)%nat ->
             exchanged command_bytes (env (Z.of_nat j)) = None)
       /\ exchanged command_bytes (env (Z.of_nat k)) = Some [].
Proof.
  induction m as [|m IH]; intros s H; [left; intros; lia|].
  unfold attempts in *. cbn [seq map] in H. rewrite send_loop_step in H.
  destruct (exchanged command_bytes (env (Z.of_nat s))) as [response|] eqn:E.
  - cbn [snd] in H. apply hex_empty in H. subst response.
    right. exists s. split; [lia|]. split; [intros; lia | exact E].
  - cbn [snd] in H. destruct (IH (S s) H) as [Hall | (k & Hk & Hbefore & Hat)].
    + left. intros j Hj. destruct (Nat.eq_dec j s) as [->|]; [exact E | apply Hall; lia].
    + right. exists k. split; [lia|]. split; [|exact Hat].
      intros j Hj. destruct (Nat.eq_dec j s) as [->|]; [exact E | apply Hbefore; lia].
Qed.

End Retry.

Lemma range_attempts (n : Z) : range n = attempts 0 (Z.to_nat n).
Proof. reflexivity. Qed.

(** A command that is not hexadecimal text makes [send] raise before any
    attempt. *)
Lemma send_bad_command (self : ModbusClient) (hex_command : str) (e : exn)
  (retry_count : Z) (env : Z -> attempt_env) :
  fromhex hex_command = Raise e -> send self hex_command retry_count env = Raise e.
Proof. unfold send. now intros ->. Qed.

Section Send.

Variable self : ModbusClient.
Variable hex_command : str.
Variable command_bytes : bytes.
Hypothesis command_is_hex : fromhex hex_command = Ok command_bytes.

Lemma send_eq (retry_count : Z) (env : Z -> attempt_env) :
  send self hex_command retry_count env
  = Ok (send_loop self command_bytes env (range retry_count)).
Proof. unfold send. now rewrite command_is_hex. Qed.

(** C2, as amended.  [send] returns the hexadecimal text of the first
    exchange that succeeds, having performed the operations of the attempts
    up to that one and nothing after; when every attempt fails at
    discovery, accept or exchange it returns the empty string; and when it
    returns the empty string, either every attempt failed or the first
    exchange that succeeded received no bytes at all. *)
Theorem send_returns_first_success (retry_count : Z) (env : Z -> attempt_env) :
  (forall k response,
      0 <= k < retry_count ->
      (forall j, 0 <= j < k -> exchanged command_bytes (env j) = None) ->
      exchanged command_bytes (env k) = Some response ->
      send self hex_command retry_count env
      = Ok (List.concat (map (attempt_ops self command_bytes env) (range (k + 1))),
            hex response))
  /\ ((forall j, 0 <= j < retry_count -> exchanged command_bytes (env j) = None) ->
      send self hex_command retry_count env
      = Ok (List.concat (map (attempt_ops self command_bytes env) (range retry_count)),
            []))
  /\ (forall log,
        send self hex_command retry_count env = Ok (log, []) ->
        (forall j, 0 <= j < retry_count -> exchanged command_bytes (env j) = None)
        \/ exists k, 0 <= k < retry_count
             /\ (forall j, 0 <= j < k -> exchanged command_bytes (env j) = None)
             /\ exchanged command_bytes (env k) = Some []).
Proof.
  rewrite send_eq, range_attempts. split; [|split].
  - intros k response Hk Hbefore Hat.
    rewrite (send_loop_first_success self command_bytes env (Z.to_nat retry_count)
               0 (Z.to_nat k) response).
    + rewrite Nat.sub_0_r, range_attempts.
      now replace (Z.to_nat (k + 1)) with (S (Z.to_nat k)) by lia.
    + lia.
    + intros j Hj. apply Hbefore. lia.
    + now rewrite Z2Nat.id by lia.
  - intros Hall. rewrite send_loop_all_fail; [reflexivity|].
    intros j Hj. apply Hall. lia.
  - intros log Hsend.
    assert (Hout : snd (send_loop self command_bytes env
                          (attempts 0 (Z.to_nat retry_count))) = [])
      by (injection Hsend as Hsend; now rewrite Hsend).
    destruct (send_loop_empty self command_bytes env _ 0%nat Hout)
      as [Hall | (k & Hk & Hbefore & Hat)].
    + left. intros j Hj. rewrite <- (Z2Nat.id j) by lia. apply Hall. lia.
    + right. exists (Z.of_nat k). split; [lia|]. split; [|exact Hat].
      intros j Hj. rewrite <- (Z2Nat.id j) by lia. apply Hbefore. lia.
Qed.

(** C10. With [retry_count <= 0] the loop body never runs: [send] returns
    the empty string having performed no operation at all, the same value
    that it returns when every attempt of a positive count fails. *)
Theorem send_without_attempts (retry_count : Z) (env : Z -> attempt_env) :
  retry_count <= 0 ->
  send self hex_command retry_count env = Ok ([], [])
  /\ (forall retry_count' env',
        (forall j, 0 <= j < retry_count' ->
           exchanged command_bytes (env' j) = None) ->
        exists log, send self hex_command retry_count' env' = Ok (log, [])).
Proof.
  intros Hn. split.
  - rewrite send_eq, range_attempts.
    now replace (Z.to_nat retry_count) with 0%nat by lia.
  - intros n' env' Hall. rewrite send_eq, range_attempts.
    rewrite send_loop_all_fail; [eauto|]. intros j Hj. apply Hall. lia.
Qed.

End Send.

Lemma send_returns_first_success_witness :
  fromhex (lit "00010001000aff0401040000000131ca")
  = Ok [0; 1; 0; 1; 0; 10; 255; 4; 1; 4; 0; 0; 0; 1; 49; 202]
  /\ exists log,
       send a_client (lit "00010001000aff0401040000000131ca") 3
         (fun k => if k =? 1
                   then {| udp := UdpAnswered;
                           tcp := Accepted {| sendall_raises := false;
                                              recvs := [RecvData [0; 1; 0; 1; 0; 1; 7]] |} |}
                   else absent_device)
       = Ok (log, lit "00010001000107").
Proof.
  assert (H : fromhex (lit "00010001000aff0401040000000131ca")
              = Ok [0; 1; 0; 1; 0; 10; 255; 4; 1; 4; 0; 0; 0; 1; 49; 202])
    by (vm_compute; reflexivity).
  split; [exact H|]. eexists.
  apply (proj1 (send_returns_first_success a_client _ _ H 3 _) 1 [0; 1; 0; 1; 0; 1; 7]).
  - lia.
  - intros j Hj. replace j with 0 by lia. reflexivity.
  - reflexivity.
Defined.

(** C2 as stated fails: a device that connects and closes without sending
    makes the one attempt succeed with an empty response, and [send] returns
    the empty string although no attempt failed. *)
Lemma send_empty_without_failure :
  snd (send_loop a_client [1; 4] (fun _ => silent_device) (range 1)) = []
  /\ (exists log, send a_client (lit "0104") 1 (fun _ => silent_device) = Ok (log, []))
  /\ exchanged [1; 4] silent_device = Some []
  /\ ~ (forall j, 0 <= j < 1 -> exchanged [1; 4] ((fun _ => silent_device) j) = None).
Proof.
  split; [reflexivity|]. split; [eexists; vm_compute; reflexivity|].
  split; [reflexivity|].
  intros H. specialize (H 0 ltac:(lia)). discriminate H.
Qed.

Lemma send_without_attempts_witness :
  (fromhex (lit "0104") = Ok [1; 4] /\ 0 <= 0)
  /\ send a_client (lit "0104") 0 (fun _ => silent_device) = Ok ([], []).
Proof.
  assert (H : fromhex (lit "0104") = Ok [1; 4]) by reflexivity.
  split; [split; [exact H | lia]|].
  apply (send_without_attempts a_client (lit "0104") [1; 4] H 0 (fun _ => silent_device)).
  lia.
Defined.

(** * Further properties of the codec *)

(** ** Requests *)

Section RequestFields.

Variable crc16_modbus : bytes -> Z.

Lemma hex_injective (a b : bytes) :
  Forall (fun x => 0 <= x < 256) a -> Forall (fun x => 0 <= x < 256) b ->
  hex a = hex b -> a = b.
Proof.
  intros Ha Hb E. apply fromhex_hex in Ha. apply fromhex_hex in Hb.
  rewrite E in Ha. congruence.
Qed.

Lemma split16_injective (x y : Z) :
  0 <= x < 65536 -> 0 <= y < 65536 ->
  (x / 256) mod 256 = (y / 256) mod 256 -> x mod 256 = y mod 256 -> x = y.
Proof. intros Hx Hy H1 H2. Z.div_mod_to_equations. lia. Qed.

(** X1. On fields that fit their widths [create_request] is injective: two
    requests with the same text were built from the same six fields. *)
Theorem create_request_injective (t p u f a c t' p' u' f' a' c' : Z) :
  0 <= t < 65536 -> 0 <= p < 65536 -> 0 <= u < 256 -> 0 <= f < 256 ->
  0 <= a < 65536 -> 0 <= c < 65536 ->
  0 <= t' < 65536 -> 0 <= p' < 65536 -> 0 <= u' < 256 -> 0 <= f' < 256 ->
  0 <= a' < 65536 -> 0 <= c' < 65536 ->
  create_request crc16_modbus t p u f a c = create_request crc16_modbus t' p' u' f' a' c' ->
  t = t' /\ p = p' /\ u = u' /\ f = f' /\ a = a' /\ c = c'.
Proof.
  intros Ht Hp Hu Hf Ha Hc Ht' Hp' Hu' Hf' Ha' Hc' E.
  rewrite !create_request_ok in E by assumption.
  apply (f_equal (fun r => match r with Ok x => x | Raise _ => [] end)) in E.
  cbv beta iota in E.
  apply hex_injective in E; try (apply request_frame_bytes; assumption).
  unfold request_frame, request_body in E. cbn [app] in E.
  injection E as T1 T2 P1 P2 U F A1 A2 C1 C2 _.
  repeat split; try assumption; now apply split16_injective.
Qed.

(** X2. The size field of a request counts the bytes that follow it: read
    the way [send] reads the length of a response, bytes 4 and 5 plus 6 give
    the length of the whole frame. *)
Theorem create_request_size_field (t p u f a c : Z) :
  0 <= u < 256 -> 0 <= f < 256 ->
  exists (s : str) (frame : bytes),
    create_request crc16_modbus t p u f a c = Ok s
    /\ fromhex s = Ok frame
    /\ int_from_bytes_big (slice frame 4 6) + 6 = len frame.
Proof.
  intros Hu Hf.
  exists (hex (request_frame crc16_modbus t p u f a c)),
         (request_frame crc16_modbus t p u f a c).
  split; [now apply create_request_ok|].
  split; [apply fromhex_hex; now apply request_frame_bytes | reflexivity].
Qed.

End RequestFields.

Lemma create_request_injective_witness :
  (0 <= 258 < 65536 /\ 0 <= 1 < 65536 /\ 0 <= 1 < 256 /\ 0 <= 4 < 256
   /\ 0 <= 100 < 65536 /\ 0 <= 3 < 65536
   /\ create_request crc16_modbus_ref 258 1 1 4 100 3
      = create_request crc16_modbus_ref (2 + 256) 1 1 4 (99 + 1) 3)
  /\ 258 = 2 + 256 /\ 100 = 99 + 1.
Proof.
  assert (E : create_request crc16_modbus_ref 258 1 1 4 100 3
              = create_request crc16_modbus_ref (2 + 256) 1 1 4 (99 + 1) 3)
    by reflexivity.
  split; [repeat split; try lia; exact E|].
  pose proof (create_request_injective crc16_modbus_ref
                258 1 1 4 100 3 (2 + 256) 1 1 4 (99 + 1) 3
                ltac:(lia) ltac:(lia) ltac:(lia) ltac:(lia) ltac:(lia) ltac:(lia)
                ltac:(lia) ltac:(lia) ltac:(lia) ltac:(lia) ltac:(lia) ltac:(lia) E)
    as (Ht & _ & _ & _ & Ha & _).
  split; [exact Ht | exact Ha].
Defined.

Lemma create_request_size_field_witness :
  (0 <= 1 < 256 /\ 0 <= 4 < 256)
  /\ exists s frame,
       create_request crc16_modbus_ref 1 1 1 4 0 1 = Ok s
       /\ fromhex s = Ok frame
       /\ int_from_bytes_big (slice frame 4 6) + 6 = len frame.
Proof.
  split; [lia|].
  apply (create_request_size_field crc16_modbus_ref 1 1 1 4 0 1); lia.
Defined.

(** ** Responses *)

Lemma decode_loop_length (data_format data_bytes : str) (indices : list Z) :
  forall acc values,
    decode_loop data_format data_bytes indices acc = Ok values ->
    List.length values = (List.length acc + List.length indices)%nat.
Proof.
  induction indices as [|i rest IH]; intros acc values; cbn [decode_loop].
  - intros [= <-]. cbn. lia.
  - destruct (decode_value data_format data_bytes i) as [v|]; [|discriminate].
    cbn [bind]. intros H. apply IH in H. rewrite length_app in H.
    cbn [List.length] in *. lia.
Qed.

(** X3. Whatever the response and the format, a call that returns yields
    exactly one value per requested register, and none for a count that is
    zero or negative. *)
Theorem decode_returns_register_count (response : str) (register_count : Z)
  (data_format : str) (values : list value) :
  decode_modbus_response response register_count data_format = Ok values ->
  len values = Z.max 0 register_count.
Proof.
  unfold decode_modbus_response.
  destruct (int16 (slice response 8 12)) as [length|]; [|discriminate]. cbn [bind].
  destruct (int16 _) as [num_data_bytes|]; [|discriminate]. cbn [bind].
  intros H. apply decode_loop_length in H. unfold len. rewrite H.
  unfold range. rewrite length_map, length_seq. cbn [List.length]. lia.
Qed.

Lemma decode_returns_register_count_witness :
  decode_modbus_response (lit "000100010009ff0401030400e6ffff") 2 (lit "Int")
  = Ok [VInt 230; VInt (-1)]
  /\ len [VInt 230; VInt (-1)] = Z.max 0 2.
Proof.
  assert (E : decode_modbus_response (lit "000100010009ff0401030400e6ffff") 2 (lit "Int")
              = Ok [VInt 230; VInt (-1)]) by (vm_compute; reflexivity).
  split; [exact E|].
  exact (decode_returns_register_count _ 2 (lit "Int") _ E).
Defined.

Lemma slice_beyond {A} (l : list A) (lo hi : Z) :
  0 <= lo -> len l <= lo -> slice l lo hi = [].
Proof.
  intros H0 H. unfold slice, clip_index.
  destruct (Z.ltb_spec lo 0); [lia|].
  rewrite (Z.min_r lo) by lia.
  unfold len at 4. rewrite Nat2Z.id, skipn_all. apply firstn_nil.
Qed.

Lemma int16_empty : int16 [] = Raise (ValueError InvalidLiteral).
Proof. reflexivity. Qed.

(** Every failure of [int16] is the invalid-literal error. *)
Lemma int16_raises (s : str) (e : exn) :
  int16 s = Raise e -> e = ValueError InvalidLiteral.
Proof.
  unfold int16. destruct (split_sign (lstrip s)) as [sign s1].
  destruct (skip_prefix s1) as [|u r]; [now intros [= <-]|].
  destruct (is_underscore u); [now intros [= <-]|].
  destruct (scan_digits false 0 0 (u :: r)) as [[[[|n] v] rest]|];
    try (now intros [= <-]).
  destruct (lstrip rest); [discriminate | now intros [= <-]].
Qed.

Lemma len_slice_from {A} (l : list A) (lo : Z) :
  0 <= lo -> len (slice_from l lo) = Z.max 0 (len l - lo).
Proof.
  intros H. unfold slice_from, clip_index.
  destruct (Z.ltb_spec lo 0); [lia|].
  unfold len. rewrite length_skipn. lia.
Qed.

(** X4. A response of at most 20 characters has no length field or no data
    count to convert: decoding it raises the invalid-literal error, for every
    register count and format.  The empty string that [send] returns when
    all attempts fail is such a response. *)
Theorem decode_short_response_raises (response : str) (register_count : Z)
  (data_format : str) :
  len response <= 20 ->
  decode_modbus_response response register_count data_format
  = Raise (ValueError InvalidLiteral).
Proof.
  intros H. unfold decode_modbus_response.
  destruct (int16 (slice response 8 12)) as [length|e] eqn:E.
  - cbn [bind].
    assert (Hs : slice (slice response 12 (12 + length * 2)) 8 10 = []).
    { apply slice_beyond; [lia|].
      unfold slice, clip_index.
      destruct (Z.ltb_spec 12 0); [lia|].
      unfold len in *. rewrite length_firstn, length_skipn. lia. }
    rewrite Hs. reflexivity.
  - cbn [bind]. now rewrite (int16_raises _ _ E).
Qed.

Lemma decode_short_response_raises_witness :
  len (@nil ascii) <= 20
  /\ decode_modbus_response [] 1 (lit "Int") = Raise (ValueError InvalidLiteral).
Proof.
  split; [discriminate|].
  apply (decode_short_response_raises [] 1 (lit "Int")). discriminate.
Defined.

(** X5. A request of at most 24 characters has no register address or no
    register count to convert: [get_registers_from_request] raises the
    invalid-literal error. *)
Theorem get_registers_short_request_raises (request : str) :
  len request <= 24 ->
  get_registers_from_request request = Raise (ValueError InvalidLiteral).
Proof.
  intros H. unfold get_registers_from_request.
  pose proof (len_slice_from request 12 ltac:(lia)) as Hl.
  destruct (int16 (slice (slice_from request 12) 8 12)) as [address|e] eqn:E.
  - cbn [bind]. rewrite (slice_beyond (slice_from request 12) 12 16) by lia.
    reflexivity.
  - cbn [bind]. now rewrite (int16_raises _ _ E).
Qed.

Lemma get_registers_short_request_raises_witness :
  len (lit "00010001000aff0401040064") <= 24
  /\ get_registers_from_request (lit "00010001000aff0401040064")
     = Raise (ValueError InvalidLiteral).
Proof.
  split; [discriminate|].
  apply (get_registers_short_request_raises (lit "00010001000aff0401040064")).
  discriminate.
Defined.

(** *** Asking for fewer or more registers than a response carries *)

(** Decoding a synthetic response runs the loop over the data words. *)
Lemma decode_synthetic_loop (data_format : str) (header rtu_head : bytes)
  (values : list Z) (register_count : Z) :
  len header = 4 -> len rtu_head = 4 -> len values <= 127 ->
  decode_modbus_response (synthetic_response header rtu_head values) register_count
    data_format
  = decode_loop data_format (hex (flat_map be16 values)) (range register_count) [].
Proof.
  intros Hh Hr Hn.
  pose proof (len_nonneg values) as Hn0.
  unfold decode_modbus_response, synthetic_response.
  set (n := len values) in *.
  rewrite !hex_app.
  rewrite (slice_mid (hex header) (hex (be16 (5 + 2 * n))))
    by (rewrite ?len_hex, ?Hh; reflexivity).
  rewrite int16_hex_be16 by lia. cbn [bind].
  rewrite (app_assoc (hex header)).
  rewrite slice_tail.
  2: { rewrite len_app, len_hex, Hh. reflexivity. }
  2: { rewrite !len_app, len_hex, Hr, len_hex_words. fold n.
       change (len (hex [2 * n])) with 2. lia. }
  rewrite (slice_mid (hex rtu_head) (hex [2 * n]))
    by (rewrite ?len_hex, ?Hr; reflexivity).
  change (hex [2 * n]) with (hex_byte (2 * n)).
  rewrite int16_hex_byte by lia. cbn [bind].
  rewrite (app_assoc (hex rtu_head)).
  rewrite slice_tail; [reflexivity| |].
  - rewrite len_app, len_hex, Hr. reflexivity.
  - rewrite len_hex_words. fold n. lia.
Qed.

Lemma decode_loop_app (data_format data_bytes : str) (i1 i2 : list Z) :
  forall acc,
    decode_loop data_format data_bytes (i1 ++ i2) acc
    = bind (decode_loop data_format data_bytes i1 acc)
        (fun acc' => decode_loop data_format data_bytes i2 acc').
Proof.
  induction i1 as [|i rest IH]; intros acc; cbn [app decode_loop bind]; [reflexivity|].
  destruct (decode_value data_format data_bytes i); cbn [bind]; [apply IH | reflexivity].
Qed.

Lemma range_app (k n : Z) :
  0 <= k <= n ->
  range n = range k ++ map Z.of_nat (seq (Z.to_nat k) (Z.to_nat (n - k))).
Proof.
  intros H. unfold range. rewrite <- map_app, <- seq_app. do 2 f_equal. lia.
Qed.

Lemma decode_loop_prefix (data_format : str) (g : Z -> value) (values : list Z)
  (register_count : Z) :
  reads_words data_format g ->
  Forall (fun v => 0 <= v < 65536) values ->
  0 <= register_count <= len values ->
  decode_loop data_format (hex (flat_map be16 values)) (range register_count) []
  = Ok (map g (firstn (Z.to_nat register_count) values)).
Proof.
  intros Hg Hvs Hrc.
  set (k := Z.to_nat register_count).
  assert (Hk : (k <= List.length values)%nat) by (unfold len in Hrc; lia).
  pose proof (decode_loop_words data_format g Hg (firstn k values) []
                (hex (flat_map be16 (skipn k values))) []) as H.
  cbn [flat_map hex app List.length] in H.
  rewrite <- hex_app, <- flat_map_app, firstn_skipn, length_firstn, Nat.min_l in H
    by assumption.
  apply H. rewrite Forall_forall in *. intros v Hv. apply Hvs.
  rewrite <- (firstn_skipn k values). apply in_or_app. now left.
Qed.

(** X6. Asking a well-formed response for fewer registers than it carries
    decodes its first words: the values returned are the leading
    [register_count] values, unsigned or sign-folded by the format. *)
Theorem decode_fewer_registers (header rtu_head : bytes) (values : list Z)
  (register_count : Z) :
  len header = 4 -> len rtu_head = 4 ->
  Forall (fun v => 0 <= v < 65536) values -> len values <= 127 ->
  0 <= register_count <= len values ->
  decode_modbus_response (synthetic_response header rtu_head values) register_count
    (lit "UnsignedInt")
  = Ok (map VInt (firstn (Z.to_nat register_count) values))
  /\ decode_modbus_response (synthetic_response header rtu_head values) register_count
       (lit "Int")
     = Ok (map (fun v => VInt (if v >=? 32768 then v - 65536 else v))
             (firstn (Z.to_nat register_count) values)).
Proof.
  intros Hh Hr Hvs Hn Hrc.
  rewrite !decode_synthetic_loop by assumption.
  split; apply decode_loop_prefix;
    auto using reads_words_unsigned, reads_words_signed.
Qed.

Lemma decode_fewer_registers_witness :
  (len [0; 1; 0; 1] = 4 /\ len [255; 4; 1; 3] = 4
   /\ Forall (fun v => 0 <= v < 65536) [230; 65535; 7]
   /\ len [230; 65535; 7] <= 127 /\ 0 <= 2 <= len [230; 65535; 7])
  /\ decode_modbus_response (lit "00010001000bff0401030600e6ffff0007") 2 (lit "Int")
     = Ok [VInt 230; VInt (-1)].
Proof.
  assert (H : Forall (fun v => 0 <= v < 65536) [230; 65535; 7])
    by (repeat constructor; lia).
  split.
  - repeat split; try reflexivity; try exact H; discriminate.
  - apply (decode_fewer_registers [0; 1; 0; 1] [255; 4; 1; 3] [230; 65535; 7] 2);
      try reflexivity; try exact H; try discriminate. split; discriminate.
Defined.

(** The word after the last one is an empty slice, which does not convert. *)
Lemma decode_value_past_end (data_format : str) (values : list Z) :
  data_format = lit "Int" \/ data_format = lit "UnsignedInt" ->
  decode_value data_format (hex (flat_map be16 values)) (len values)
  = Raise (ValueError InvalidLiteral).
Proof.
  intros Hf. pose proof (len_nonneg values).
  assert (Hs : slice (hex (flat_map be16 values)) (len values * 4) ((len values + 1) * 4)
               = [])
    by (apply slice_beyond; rewrite ?len_hex_words; lia).
  unfold decode_value. destruct Hf as [-> | ->].
  - change (str_eqb (lit "Int") (lit "Int")) with true. cbv iota. now rewrite Hs.
  - change (str_eqb (lit "UnsignedInt") (lit "Int")) with false.
    change (str_eqb (lit "UnsignedInt") (lit "UnsignedInt")) with true.
    cbv iota. now rewrite Hs.
Qed.

(** X7. Asking a well-formed response for more registers than it carries
    raises the invalid-literal error: the loop is not bounded by the declared
    data, and the slice after the last word is empty. *)
Theorem decode_more_registers_raises (header rtu_head : bytes) (values : list Z)
  (register_count : Z) (data_format : str) :
  len header = 4 -> len rtu_head = 4 ->
  Forall (fun v => 0 <= v < 65536) values -> len values <= 127 ->
  data_format = lit "Int" \/ data_format = lit "UnsignedInt" ->
  len values < register_count ->
  decode_modbus_response (synthetic_response header rtu_head values) register_count
    data_format
  = Raise (ValueError InvalidLiteral).
Proof.
  intros Hh Hr Hvs Hn Hf Hrc. pose proof (len_nonneg values) as Hn0.
  rewrite decode_synthetic_loop by assumption.
  rewrite (range_app (len values) register_count) by lia.
  rewrite decode_loop_app.
  assert (Hfirst : exists g, decode_loop data_format (hex (flat_map be16 values))
                               (range (len values)) [] = Ok (map g values)).
  { destruct Hf as [-> | ->]; eexists.
    - rewrite (decode_loop_prefix _ _ values (len values) reads_words_signed Hvs)
        by lia.
      unfold len. now rewrite Nat2Z.id, firstn_all.
    - rewrite (decode_loop_prefix _ _ values (len values) reads_words_unsigned Hvs)
        by lia.
      unfold len. now rewrite Nat2Z.id, firstn_all. }
  destruct Hfirst as (g & ->). cbn [bind].
  destruct (Z.to_nat (register_count - len values)) as [|m] eqn:Em; [lia|].
  cbn [seq map decode_loop]. rewrite Z2Nat.id by lia.
  now rewrite decode_value_past_end.
Qed.

Lemma decode_more_registers_raises_witness :
  (len [0; 1; 0; 1] = 4 /\ len [255; 4; 1; 3] = 4
   /\ Forall (fun v => 0 <= v < 65536) [230; 65535]
   /\ len [230; 65535] <= 127
   /\ (lit "UnsignedInt" = lit "Int" \/ lit "UnsignedInt" = lit "UnsignedInt")
   /\ len [230; 65535] < 3)
  /\ decode_modbus_response (lit "000100010009ff0401030400e6ffff") 3 (lit "UnsignedInt")
     = Raise (ValueError InvalidLiteral).
Proof.
  assert (H : Forall (fun v => 0 <= v < 65536) [230; 65535])
    by (repeat constructor; lia).
  split.
  - repeat split; try reflexivity; try exact H; try discriminate. now right.
  - apply (decode_more_registers_raises [0; 1; 0; 1] [255; 4; 1; 3] [230; 65535] 3
             (lit "UnsignedInt")); try reflexivity; try exact H; try discriminate.
    now right.
Defined.

(** *** Responses as [send] returns them *)

Lemma hex_nibbles (bs : bytes) : hex bs = map hex_digit (nibbles bs).
Proof.
  induction bs as [|b bs IH]; [reflexivity|].
  change (hex (b :: bs)) with (hex_digit (b / 16) :: hex_digit (b mod 16) :: hex bs).
  now rewrite IH.
Qed.

Lemma nibbles_digits (bs : bytes) :
  Forall (fun b => 0 <= b < 256) bs -> Forall (fun d => 0 <= d < 16) (nibbles bs).
Proof.
  induction 1 as [|b bs Hb _ IH]; [constructor|].
  cbn [nibbles flat_map app]. repeat constructor; try exact IH;
    Z.div_mod_to_equations; lia.
Qed.

Lemma slice_map {A B} (g : A -> B) (l : list A) (lo hi : Z) :
  slice (map g l) lo hi = map g (slice l lo hi).
Proof.
  unfold slice, clip_index, len. rewrite length_map.
  now rewrite skipn_map, firstn_map.
Qed.

Lemma Forall_slice {A} (P : A -> Prop) (l : list A) (lo hi : Z) :
  Forall P l -> Forall P (slice l lo hi).
Proof.
  intros H. unfold slice. rewrite Forall_forall in *. intros x Hx. apply H.
  set (n := Z.to_nat (clip_index l lo)) in *.
  rewrite <- (firstn_skipn n l). apply in_or_app. right.
  set (m := Z.to_nat (clip_index l hi - clip_index l lo)) in *.
  rewrite <- (firstn_skipn m (skipn n l)). apply in_or_app. now left.
Qed.

Lemma digits_value_word (ds : list Z) :
  Forall (fun d => 0 <= d < 16) ds -> len ds <= 4 -> 0 <= digits_value ds 0 <= 65535.
Proof.
  intros H Hl.
  destruct ds as [|d1 [|d2 [|d3 [|d4 [|d5 r]]]]];
    try (unfold len in Hl; cbn [List.length] in Hl; lia);
    repeat match goal with
           | H : Forall _ (_ :: _) |- _ => inversion H; subst; clear H
           end;
    unfold digits_value; cbn [fold_left]; lia.
Qed.

(** A word of a hexadecimal text, as the loop body converts it. *)
Lemma int16_word_of_digits (ds : list Z) (i v : Z) :
  Forall (fun d => 0 <= d < 16) ds -> 0 <= i ->
  int16 (slice (map hex_digit ds) (i * 4) ((i + 1) * 4)) = Ok v ->
  0 <= v <= 65535.
Proof.
  intros Hds Hi. rewrite slice_map.
  pose proof (Forall_slice _ ds (i * 4) ((i + 1) * 4) Hds) as Hw.
  pose proof (len_slice_bound ds (i * 4) ((i + 1) * 4) ltac:(lia)) as Hl.
  destruct (slice ds (i * 4) ((i + 1) * 4)) as [|d w] eqn:E; [discriminate|].
  rewrite int16_digits by (try discriminate; assumption).
  intros [= <-]. apply (digits_value_word (d :: w)); [assumption | lia].
Qed.

Lemma decode_loop_invariant (P : value -> Prop) (data_format data_bytes : str)
  (indices : list Z) :
  (forall i v, In i indices -> decode_value data_format data_bytes i = Ok v -> P v) ->
  forall acc values,
    Forall P acc ->
    decode_loop data_format data_bytes indices acc = Ok values -> Forall P values.
Proof.
  induction indices as [|i rest IH]; intros Hv acc values Hacc; cbn [decode_loop].
  - now intros [= <-].
  - destruct (decode_value data_format data_bytes i) as [v|] eqn:E; [|discriminate].
    cbn [bind]. apply IH.
    + intros j w Hj. apply Hv. now right.
    + apply Forall_app. split; [assumption|]. constructor; [|constructor].
      apply (Hv i); [now left | assumption].
Qed.

Lemma in_range (n i : Z) : In i (range n) -> 0 <= i < n.
Proof.
  unfold range. rewrite in_map_iff. intros (k & <- & Hk). apply in_seq in Hk. lia.
Qed.

(** X8. On a response that is the hexadecimal text of bytes, as [send]
    returns it, the values that decoding returns are in range: within
    [0, 65535] for [UnsignedInt] and within [-32768, 32767] for [Int]. *)
Theorem decode_values_in_range (bs : bytes) (register_count : Z) (values : list value) :
  Forall (fun b => 0 <= b < 256) bs ->
  (decode_modbus_response (hex bs) register_count (lit "UnsignedInt") = Ok values ->
   Forall (fun v => exists z, v = VInt z /\ 0 <= z <= 65535) values)
  /\ (decode_modbus_response (hex bs) register_count (lit "Int") = Ok values ->
      Forall (fun v => exists z, v = VInt z /\ -32768 <= z <= 32767) values).
Proof.
  intros Hbs. pose proof (nibbles_digits bs Hbs) as Hds.
  rewrite hex_nibbles. unfold decode_modbus_response.
  destruct (int16 (slice (map hex_digit (nibbles bs)) 8 12)) as [length|];
    [|split; discriminate].
  cbn [bind]. rewrite !slice_map.
  destruct (int16 _) as [num_data_bytes|]; [|split; discriminate].
  cbn [bind]. rewrite !slice_map.
  set (ds := slice (slice (nibbles bs) 12 (12 + length * 2)) 10 (10 + num_data_bytes * 2)).
  assert (Hw : Forall (fun d => 0 <= d < 16) ds) by (do 2 apply Forall_slice; exact Hds).
  split; apply decode_loop_invariant; try constructor;
    intros i v Hi; apply in_range in Hi; unfold decode_value.
  - change (str_eqb (lit "UnsignedInt") (lit "Int")) with false.
    change (str_eqb (lit "UnsignedInt") (lit "UnsignedInt")) with true. cbv iota.
    destruct (int16 _) as [z|] eqn:E; [|discriminate]. cbn [bind]. intros [= <-].
    exists z. split; [reflexivity|].
    now apply (int16_word_of_digits ds i z Hw (proj1 Hi)).
  - change (str_eqb (lit "Int") (lit "Int")) with true. cbv iota.
    destruct (int16 _) as [z|] eqn:E; [|discriminate]. cbn [bind]. intros [= <-].
    apply (int16_word_of_digits ds i z Hw (proj1 Hi)) in E.
    eexists. split; [reflexivity|].
    destruct (Z.geb_spec z 32768); lia.
Qed.

Lemma decode_values_in_range_witness :
  Forall (fun b => 0 <= b < 256) [0; 1; 0; 1; 0; 9; 255; 4; 1; 3; 4; 0; 230; 255; 255]
  /\ decode_modbus_response
       (hex [0; 1; 0; 1; 0; 9; 255; 4; 1; 3; 4; 0; 230; 255; 255]) 2 (lit "Int")
     = Ok [VInt 230; VInt (-1)]
  /\ Forall (fun v => exists z, v = VInt z /\ -32768 <= z <= 32767) [VInt 230; VInt (-1)].
Proof.
  assert (H : Forall (fun b => 0 <= b < 256)
                [0; 1; 0; 1; 0; 9; 255; 4; 1; 3; 4; 0; 230; 255; 255])
    by (repeat constructor; lia).
  assert (E : decode_modbus_response
                (hex [0; 1; 0; 1; 0; 9; 255; 4; 1; 3; 4; 0; 230; 255; 255]) 2 (lit "Int")
              = Ok [VInt 230; VInt (-1)]) by (vm_compute; reflexivity).
  split; [exact H|]. split; [exact E|].
  exact (proj2 (decode_values_in_range _ 2 _ H) E).
Defined.

(** * Further properties of the exchange and the retry loop *)

(** ** Reading a response in pieces *)

Lemma recv_rest_done (expected_length : Z) (response : bytes) (script : list recv_event) :
  expected_length <= len response ->
  recv_rest expected_length response script = ([], Some response).
Proof.
  intros H. destruct script; cbn [recv_rest];
    destruct (Z.ltb_spec (len response) expected_length); try lia; reflexivity.
Qed.

(** Non-empty chunks that do not overshoot the expected length are all read
    and appended. *)
Lemma recv_rest_prefix (expected_length : Z) (chunks : list bytes)
  (tail : list recv_event) : forall response,
  Forall (fun chunk => chunk <> []) chunks ->
  len (response ++ List.concat chunks) <= expected_length ->
  recv_rest expected_length response (map RecvData chunks ++ tail)
  = (repeat (TcpRecv 1024) (List.length chunks)
       ++ fst (recv_rest expected_length (response ++ List.concat chunks) tail),
     snd (recv_rest expected_length (response ++ List.concat chunks) tail)).
Proof.
  induction chunks as [|chunk chunks IH]; intros response Hne Hlen.
  - cbn [map app List.concat List.length repeat]. rewrite app_nil_r.
    now destruct (recv_rest expected_length response tail).
  - inversion Hne as [|? ? Hc Hne']; subst.
    destruct chunk as [|b chunk]; [congruence|].
    cbn [List.concat] in Hlen. rewrite app_assoc in Hlen.
    assert (Hlt : len response < expected_length).
    { rewrite !len_app in Hlen. pose proof (len_nonneg (List.concat chunks)).
      unfold len in *. cbn [List.length] in *. lia. }
    cbn [map app recv_rest].
    destruct (Z.ltb_spec (len response) expected_length); [|lia].
    rewrite (IH (response ++ b :: chunk) Hne' Hlen).
    cbn [List.concat List.length repeat]. now rewrite <- !app_assoc.
Qed.

Lemma int_from_bytes_big_prefix (first rest : bytes) :
  6 <= len first ->
  int_from_bytes_big (slice (first ++ rest) 4 6) = int_from_bytes_big (slice first 4 6).
Proof.
  intros H. rewrite !int_from_bytes_big_4_6 by (rewrite ?len_app; pose proof (len_nonneg rest); lia).
  unfold len in H. now rewrite !app_nth1 by lia.
Qed.

(** The exchange on a script that starts with a first chunk of at least six
    bytes and non-empty chunks within the expected length. *)
Lemma exchange_collects (command_bytes first : bytes) (chunks : list bytes)
  (tail : list recv_event) :
  6 <= len first ->
  Forall (fun chunk => chunk <> []) chunks ->
  len (first ++ List.concat chunks) <= int_from_bytes_big (slice first 4 6) + 6 ->
  exchange command_bytes
    {| sendall_raises := false; recvs := RecvData first :: map RecvData chunks ++ tail |}
  = (TcpSendall command_bytes :: TcpRecv 1024
       :: repeat (TcpRecv 1024) (List.length chunks)
       ++ fst (recv_rest (int_from_bytes_big (slice first 4 6) + 6)
                 (first ++ List.concat chunks) tail),
     snd (recv_rest (int_from_bytes_big (slice first 4 6) + 6)
            (first ++ List.concat chunks) tail)).
Proof.
  intros H6 Hne Hlen. unfold exchange. cbn [sendall_raises recvs recv].
  destruct (Z.geb_spec (len first) 6); [|lia].
  now rewrite (recv_rest_prefix _ chunks tail first Hne Hlen).
Qed.

Lemma exchange_complete_frame (command_bytes first : bytes) (chunks : list bytes)
  (tail : list recv_event) :
  6 <= len first ->
  Forall (fun chunk => chunk <> []) chunks ->
  int_from_bytes_big (slice (first ++ List.concat chunks) 4 6) + 6
  = len (first ++ List.concat chunks) ->
  exchange command_bytes
    {| sendall_raises := false; recvs := RecvData first :: map RecvData chunks ++ tail |}
  = (TcpSendall command_bytes :: repeat (TcpRecv 1024) (S (List.length chunks)),
     Some (first ++ List.concat chunks)).
Proof.
  intros H6 Hne Hlen. rewrite int_from_bytes_big_prefix in Hlen by assumption.
  rewrite exchange_collects by (try assumption; lia).
  rewrite recv_rest_done by lia. cbn [fst snd repeat]. now rewrite app_nil_r.
Qed.

(** X9. However the connection cuts a response into chunks, provided the
    first holds the six header bytes and none is empty, the exchange returns
    the whole frame whose length field matches its length, after one [recv]
    per chunk, and reads nothing of what follows. *)
Theorem exchange_reassembles (command_bytes first : bytes) (chunks : list bytes)
  (tail : list recv_event) :
  6 <= len first ->
  Forall (fun chunk => chunk <> []) chunks ->
  int_from_bytes_big (slice (first ++ List.concat chunks) 4 6) + 6
  = len (first ++ List.concat chunks) ->
  exchange command_bytes
    {| sendall_raises := false; recvs := RecvData first :: map RecvData chunks ++ tail |}
  = (TcpSendall command_bytes :: repeat (TcpRecv 1024) (S (List.length chunks)),
     Some (first ++ List.concat chunks)).
Proof. apply exchange_complete_frame. Qed.

Lemma exchange_reassembles_witness :
  (6 <= len [0; 1; 0; 1; 0; 5; 255]
   /\ Forall (fun chunk : bytes => chunk <> []) [[4]; [1; 3; 0]]
   /\ int_from_bytes_big (slice ([0; 1; 0; 1; 0; 5; 255] ++ List.concat [[4]; [1; 3; 0]]) 4 6)
      + 6
      = len ([0; 1; 0; 1; 0; 5; 255] ++ List.concat [[4]; [1; 3; 0]]))
  /\ snd (exchange [1; 4]
            {| sendall_raises := false;
               recvs := RecvData [0; 1; 0; 1; 0; 5; 255]
                        :: map RecvData [[4]; [1; 3; 0]] ++ [RecvRaises] |})
     = Some [0; 1; 0; 1; 0; 5; 255; 4; 1; 3; 0].
Proof.
  assert (Hne : Forall (fun chunk : bytes => chunk <> []) [[4]; [1; 3; 0]])
    by (repeat constructor; discriminate).
  split; [split; [discriminate | split; [exact Hne | reflexivity]]|].
  rewrite (exchange_reassembles [1; 4] [0; 1; 0; 1; 0; 5; 255] [[4]; [1; 3; 0]]
             [RecvRaises]); [reflexivity | discriminate | exact Hne | reflexivity].
Defined.

(** X10. A peer that closes before the expected length is reached leaves
    the exchange with what was accumulated; a [recv] that raises at the same
    point loses it: the exchange fails and nothing is returned. *)
Theorem exchange_close_keeps_raise_loses (command_bytes first : bytes)
  (chunks : list bytes) (tail : list recv_event) :
  6 <= len first ->
  Forall (fun chunk => chunk <> []) chunks ->
  len (first ++ List.concat chunks) < int_from_bytes_big (slice first 4 6) + 6 ->
  snd (exchange command_bytes
         {| sendall_raises := false;
            recvs := RecvData first :: map RecvData chunks ++ RecvData [] :: tail |})
  = Some (first ++ List.concat chunks)
  /\ snd (exchange command_bytes
            {| sendall_raises := false;
               recvs := RecvData first :: map RecvData chunks ++ [] |})
     = Some (first ++ List.concat chunks)
  /\ snd (exchange command_bytes
            {| sendall_raises := false;
               recvs := RecvData first :: map RecvData chunks ++ RecvRaises :: tail |})
     = None.
Proof.
  intros H6 Hne Hlen.
  rewrite !exchange_collects by (try assumption; lia).
  cbn [snd recv_rest].
  destruct (Z.ltb_spec (len (first ++ List.concat chunks))
              (int_from_bytes_big (slice first 4 6) + 6)); [|lia].
  repeat split; reflexivity.
Qed.

Lemma exchange_close_keeps_raise_loses_witness :
  (6 <= len [0; 1; 0; 1; 0; 5; 255]
   /\ Forall (fun chunk : bytes => chunk <> []) [[4]]
   /\ len ([0; 1; 0; 1; 0; 5; 255] ++ List.concat [[4]])
      < int_from_bytes_big (slice [0; 1; 0; 1; 0; 5; 255] 4 6) + 6)
  /\ snd (exchange [1; 4]
            {| sendall_raises := false;
               recvs := RecvData [0; 1; 0; 1; 0; 5; 255]
                        :: map RecvData [[4]] ++ RecvRaises :: [] |})
     = None.
Proof.
  assert (Hne : Forall (fun chunk : bytes => chunk <> []) [[4]])
    by (repeat constructor; discriminate).
  split; [split; [discriminate | split; [exact Hne | reflexivity]]|].
  apply (exchange_close_keeps_raise_loses [1; 4] [0; 1; 0; 1; 0; 5; 255] [[4]] []);
    [discriminate | exact Hne | reflexivity].
Defined.

(** ** Counting operations *)

Lemma count_ops_app (p : io_event -> bool) (a b : list io_event) :
  count_ops p (a ++ b) = (count_ops p a + count_ops p b)%nat.
Proof. unfold count_ops. now rewrite filter_app, length_app. Qed.

Lemma count_ops_none (p : io_event -> bool) (log : list io_event) :
  Forall (fun ev => p ev = false) log -> count_ops p log = 0%nat.
Proof.
  induction 1 as [|ev log Hev _ IH]; [reflexivity|].
  unfold count_ops in *. cbn [filter]. now rewrite Hev.
Qed.

Lemma recv_rest_count (expected_length : Z) (script : list recv_event) :
  forall response,
    (count_ops is_tcp_recv (fst (recv_rest expected_length response script))
     <= Z.to_nat (expected_length - len response))%nat.
Proof.
  induction script as [|ev script IH]; intros response; cbn [recv_rest];
    destruct (Z.ltb_spec (len response) expected_length); cbn; try lia.
  destruct ev as [[|b chunk]|]; cbn; try lia.
  specialize (IH (response ++ b :: chunk)).
  destruct (recv_rest expected_length (response ++ b :: chunk) script) as [log r].
  cbn [fst] in *. change (count_ops is_tcp_recv (TcpRecv 1024 :: log))
    with (S (count_ops is_tcp_recv log)).
  rewrite len_app in IH. unfold len in *. cbn [List.length] in IH. lia.
Qed.

Lemma int_from_bytes_big_4_6_bound (first : bytes) :
  6 <= len first -> Forall (fun b => 0 <= b < 256) first ->
  0 <= int_from_bytes_big (slice first 4 6) <= 65535.
Proof.
  intros H6 Hb. rewrite int_from_bytes_big_4_6 by assumption.
  destruct first as [|b0 [|b1 [|b2 [|b3 [|b4 [|b5 tail]]]]]];
    try (unfold len in H6; cbn [List.length] in H6; lia).
  repeat match goal with
         | H : Forall _ (_ :: _) |- _ => inversion H; subst; clear H
         end.
  cbn [nth]. lia.
Qed.

(** X11. Whatever the peer sends and however long it goes on sending, one
    exchange calls [recv] at most 65536 times: every further read adds at
    least one byte towards an expected length of at most 65535 + 6. *)
Theorem exchange_recv_bound (command_bytes : bytes) (c : connection) :
  (forall chunk, In (RecvData chunk) (recvs c) -> Forall (fun b => 0 <= b < 256) chunk) ->
  Z.of_nat (count_ops is_tcp_recv (fst (exchange command_bytes c))) <= 65536.
Proof.
  intros Hb. unfold exchange.
  destruct (sendall_raises c);
    [cbn [fst count_ops filter is_tcp_recv List.length]; lia|].
  destruct (recvs c) as [|[first|] script] eqn:E; cbn [recv];
    try (cbn [fst len count_ops filter is_tcp_recv List.length Z.of_nat Z.geb Z.compare];
         lia).
  destruct (Z.geb_spec (len first) 6) as [H6|];
    [|cbn [fst count_ops filter is_tcp_recv List.length]; lia].
  pose proof (int_from_bytes_big_4_6_bound first H6 (Hb first (or_introl eq_refl)))
    as Hexp.
  pose proof (recv_rest_count (int_from_bytes_big (slice first 4 6) + 6) script first)
    as Hc.
  destruct (recv_rest _ first script) as [log r]. cbn [fst] in *.
  rewrite count_ops_app.
  change (count_ops is_tcp_recv [TcpSendall command_bytes; TcpRecv 1024]) with 1%nat.
  lia.
Qed.

Lemma exchange_recv_bound_witness :
  (forall chunk,
      In (RecvData chunk)
        (recvs {| sendall_raises := false;
                  recvs := [RecvData [0; 1; 0; 1; 0; 5; 255]; RecvData [4; 1; 3; 0]] |}) ->
      Forall (fun b => 0 <= b < 256) chunk)
  /\ Z.of_nat
       (count_ops is_tcp_recv
          (fst (exchange [1; 4]
                  {| sendall_raises := false;
                     recvs := [RecvData [0; 1; 0; 1; 0; 5; 255]; RecvData [4; 1; 3; 0]] |})))
     <= 65536.
Proof.
  assert (H : forall chunk,
             In (RecvData chunk)
               (recvs {| sendall_raises := false;
                         recvs := [RecvData [0; 1; 0; 1; 0; 5; 255];
                                   RecvData [4; 1; 3; 0]] |}) ->
             Forall (fun b => 0 <= b < 256) chunk).
  { cbn [recvs In]. intros chunk [[= <-] | [[= <-] | []]]; repeat constructor; lia. }
  split; [exact H|].
  exact (exchange_recv_bound [1; 4] _ H).
Defined.

(** ** The operations of an attempt *)

Lemma recv_rest_ops (expected_length : Z) (script : list recv_event) :
  forall response,
    Forall (fun ev => ev = TcpRecv 1024)
      (fst (recv_rest expected_length response script)).
Proof.
  induction script as [|ev script IH]; intros response; cbn [recv_rest];
    destruct (len response <? expected_length); cbn [fst]; try each_one_of.
  destruct ev as [[|b chunk]|]; cbn [fst]; try each_one_of.
  specialize (IH (response ++ b :: chunk)).
  destruct (recv_rest expected_length (response ++ b :: chunk) script) as [log r].
  cbn [fst] in *. now constructor.
Qed.

Lemma exchange_ops (command_bytes : bytes) (c : connection) :
  Forall (fun ev => ev = TcpSendall command_bytes \/ ev = TcpRecv 1024)
    (fst (exchange command_bytes c)).
Proof.
  unfold exchange. destruct (sendall_raises c); [cbn [fst]; each_one_of|].
  destruct (recv (recvs c)) as [[response|] script]; [|cbn [fst]; each_one_of].
  destruct (len response >=? 6); [|cbn [fst]; each_one_of].
  pose proof (recv_rest_ops (int_from_bytes_big (slice response 4 6) + 6) script response)
    as H.
  destruct (recv_rest _ response script) as [log r]. cbn [fst] in *.
  apply Forall_app. split; [each_one_of|].
  eapply Forall_impl; [|exact H]. cbv beta. auto.
Qed.

Lemma exchange_client_ops (self : ModbusClient) (command_bytes : bytes) (c : connection) :
  Forall (client_op self command_bytes) (fst (exchange command_bytes c)).
Proof.
  eapply Forall_impl; [|apply exchange_ops]. unfold client_op. cbv beta. tauto.
Qed.

Lemma attempt_client_ops (self : ModbusClient) (command_bytes : bytes) (e : attempt_env) :
  Forall (client_op self command_bytes) (fst (attempt self command_bytes e)).
Proof.
  assert (Hu : Forall (client_op self command_bytes)
                 (fst (send_udp_discovery self (udp e))))
    by (unfold send_udp_discovery; destruct (udp e); cbn [fst]; each_one_of).
  unfold attempt.
  destruct (send_udp_discovery self (udp e)) as [log_udp discovered]. cbn [fst] in Hu.
  destruct discovered; cbn [negb].
  2: { cbn [fst]. apply Forall_app. split; [exact Hu | each_one_of]. }
  pose proof (exchange_client_ops self command_bytes) as Hx.
  destruct (tcp e) as [| | |c]; cbn [fst];
    try (apply Forall_app; split; [exact Hu | each_one_of]).
  specialize (Hx c). destruct (exchange command_bytes c) as [log_x [response|]];
    cbn [fst] in *.
  - apply Forall_app. split; [exact Hu|]. apply Forall_app. split; [each_one_of | exact Hx].
  - apply Forall_app. split; [exact Hu|]. apply Forall_app. split; [each_one_of|].
    apply Forall_app. split; [exact Hx | each_one_of].
Qed.

Lemma send_loop_client_ops (self : ModbusClient) (command_bytes : bytes)
  (env : Z -> attempt_env) (indices : list Z) :
  Forall (client_op self command_bytes)
    (fst (send_loop self command_bytes env indices)).
Proof.
  induction indices as [|k rest IH]; [constructor|].
  rewrite send_loop_step.
  pose proof (attempt_client_ops self command_bytes (env k)) as Hk.
  destruct (exchanged command_bytes (env k)); cbn [fst]; [exact Hk|].
  apply Forall_app. now split.
Qed.

(** ** Attempts and back-off *)

Section Accounting.

Variable self : ModbusClient.
Variable command_bytes : bytes.
Variable env : Z -> attempt_env.

Lemma exchange_ops_counts (log : list io_event) :
  Forall (fun ev => ev = TcpSendall command_bytes \/ ev = TcpRecv 1024) log ->
  count_ops is_udp_sendto log = 0%nat /\ count_ops is_sleep log = 0%nat.
Proof.
  intros H. split; apply count_ops_none; eapply Forall_impl; try exact H;
    cbv beta; intros ev [-> | ->]; reflexivity.
Qed.

(** One attempt sends one discovery datagram, and sleeps once exactly when
    it fails. *)
Lemma attempt_counts (e : attempt_env) :
  count_ops is_udp_sendto (fst (attempt self command_bytes e)) = 1%nat
  /\ count_ops is_sleep (fst (attempt self command_bytes e))
     = match exchanged command_bytes e with Some _ => 0%nat | None => 1%nat end.
Proof.
  unfold attempt, exchanged, send_udp_discovery.
  destruct (udp e); cbn [negb fst]; try (split; reflexivity).
  destruct (tcp e) as [| | |c]; cbn [fst]; try (split; reflexivity).
  pose proof (exchange_ops_counts _ (exchange_ops command_bytes c)) as [Hs Hz].
  destruct (exchange command_bytes c) as [log_x [response|]]; cbn [fst snd] in *;
    rewrite !count_ops_app, ?Hs, ?Hz; split; reflexivity.
Qed.

Lemma send_loop_counts_all_fail (m : nat) : forall s : nat,
  (forall j, (s <= j < s + m)%nat -> exchanged command_bytes (env (Z.of_nat j)) = None) ->
  count_ops is_udp_sendto (fst (send_loop self command_bytes env (attempts s m))) = m
  /\ count_ops is_sleep (fst (send_loop self command_bytes env (attempts s m))) = m.
Proof.
  induction m as [|m IH]; intros s H; [split; reflexivity|].
  unfold attempts in *. cbn [seq map]. rewrite send_loop_step.
  pose proof (attempt_counts (env (Z.of_nat s))) as [Hu Hz].
  rewrite H in * by lia. cbn [fst]. unfold attempt_ops. rewrite !count_ops_app, Hu, Hz.
  destruct (IH (S s)) as [-> ->]; [intros j Hj; apply H; lia|]. split; reflexivity.
Qed.

Lemma send_loop_counts_success (m : nat) : forall (s k : nat) (response : bytes),
  (s <= k < s + m)%nat ->
  (forall j, (s <= j < k)%nat -> exchanged command_bytes (env (Z.of_nat j)) = None) ->
  exchanged command_bytes (env (Z.of_nat k)) = Some response ->
  count_ops is_udp_sendto (fst (send_loop self command_bytes env (attempts s m)))
  = (S k - s)%nat
  /\ count_ops is_sleep (fst (send_loop self command_bytes env (attempts s m)))
     = (k - s)%nat.
Proof.
  induction m as [|m IH]; intros s k response Hk Hbefore Hat; [lia|].
  unfold attempts in *. cbn [seq map]. rewrite send_loop_step.
  pose proof (attempt_counts (env (Z.of_nat s))) as [Hu Hz].
  destruct (Nat.eq_dec s k) as [->|Hne].
  - rewrite Hat in *. cbn [fst]. unfold attempt_ops. rewrite Hu, Hz. split; lia.
  - rewrite Hbefore in * by lia. cbn [fst]. unfold attempt_ops.
    rewrite !count_ops_app, Hu, Hz.
    destruct (IH (S s) k response) as [-> ->];
      [lia | intros; apply Hbefore; lia | assumption |]. split; lia.
Qed.

End Accounting.

(** X12. [send] sends one discovery datagram per attempt and sleeps one
    second after each failed attempt and only then: when every attempt fails
    it has sent [retry_count] datagrams and slept [retry_count] times, and
    when attempt [k] is the first to succeed it has sent [k + 1] datagrams
    and slept [k] times. *)
Theorem send_datagrams_and_sleeps (self : ModbusClient) (hex_command : str)
  (command_bytes : bytes) (retry_count : Z) (env : Z -> attempt_env)
  (log : list io_event) (out : str) :
  fromhex hex_command = Ok command_bytes ->
  send self hex_command retry_count env = Ok (log, out) ->
  ((forall j, 0 <= j < retry_count -> exchanged command_bytes (env j) = None) ->
   Z.of_nat (count_ops is_udp_sendto log) = Z.max 0 retry_count
   /\ Z.of_nat (count_ops is_sleep log) = Z.max 0 retry_count)
  /\ (forall k response,
        0 <= k < retry_count ->
        (forall j, 0 <= j < k -> exchanged command_bytes (env j) = None) ->
        exchanged command_bytes (env k) = Some response ->
        Z.of_nat (count_ops is_udp_sendto log) = k + 1
        /\ Z.of_nat (count_ops is_sleep log) = k)
  /\ Forall (fun ev => forall seconds, ev = Sleep seconds -> seconds = 1) log.
Proof.
  intros Hhex Hsend. rewrite (send_eq self hex_command command_bytes Hhex) in Hsend.
  injection Hsend as Hsend.
  assert (Hlog : log = fst (send_loop self command_bytes env
                              (attempts 0 (Z.to_nat retry_count))))
    by (rewrite <- range_attempts, Hsend; reflexivity).
  split; [|split].
  - intros Hall.
    destruct (send_loop_counts_all_fail self command_bytes env (Z.to_nat retry_count) 0)
      as [Hu Hz]; [intros j Hj; apply Hall; lia|].
    rewrite Hlog, Hu, Hz. lia.
  - intros k response Hk Hbefore Hat.
    destruct (send_loop_counts_success self command_bytes env (Z.to_nat retry_count)
                0 (Z.to_nat k) response) as [Hu Hz];
      [lia | intros j Hj; apply Hbefore; lia | now rewrite Z2Nat.id by lia |].
    rewrite Hlog, Hu, Hz. lia.
  - rewrite Hlog. eapply Forall_impl; [|apply send_loop_client_ops].
    intros ev Hev seconds ->. unfold client_op in Hev.
    repeat (destruct Hev as [Hev | Hev]; [discriminate Hev|]). now injection Hev.
Qed.

Lemma send_datagrams_and_sleeps_witness :
  (fromhex (lit "0104") = Ok [1; 4]
   /\ send a_client (lit "0104") 3 (fun k => if k =? 2 then silent_device else absent_device)
      = Ok (fst (send_loop a_client [1; 4]
                   (fun k => if k =? 2 then silent_device else absent_device) (range 3)),
            []))
  /\ Z.of_nat
       (count_ops is_udp_sendto
          (fst (send_loop a_client [1; 4]
                  (fun k => if k =? 2 then silent_device else absent_device) (range 3))))
     = 2 + 1
  /\ Z.of_nat
       (count_ops is_sleep
          (fst (send_loop a_client [1; 4]
                  (fun k => if k =? 2 then silent_device else absent_device) (range 3))))
     = 2.
Proof.
  assert (H : fromhex (lit "0104") = Ok [1; 4]) by reflexivity.
  assert (E : send a_client (lit "0104") 3
                (fun k => if k =? 2 then silent_device else absent_device)
              = Ok (fst (send_loop a_client [1; 4]
                           (fun k => if k =? 2 then silent_device else absent_device)
                           (range 3)), []))
    by (vm_compute; reflexivity).
  split; [split; [exact H | exact E]|].
  apply (proj1 (proj2 (send_datagrams_and_sleeps a_client (lit "0104") [1; 4] 3 _ _ _ H E))
           2 []); [lia | | reflexivity].
  intros j Hj. assert (Hc : j = 0 \/ j = 1) by lia. destruct Hc as [-> | ->]; reflexivity.
Defined.

(** ** What [send] returns and writes *)










(** ** From the connection to the decoded values *)

Lemma len_words (values : list Z) : len (flat_map be16 values) = 2 * len values.
Proof.
  induction values as [|v values IH]; [reflexivity|].
  cbn [flat_map]. rewrite len_app, IH. unfold len. cbn [List.length be16]. lia.
Qed.

Lemma int_from_bytes_big_be16 (v : Z) : int_from_bytes_big (be16 v) = v.
Proof.
  unfold int_from_bytes_big, be16. cbn [fold_left]. Z.div_mod_to_equations. lia.
Qed.

(** The length field of a synthetic frame is its length less the six header
    bytes. *)
Lemma synthetic_frame_length (header rtu_head : bytes) (values : list Z) :
  len header = 4 -> len rtu_head = 4 ->
  int_from_bytes_big (slice (synthetic_frame header rtu_head values) 4 6) + 6
  = len (synthetic_frame header rtu_head values).
Proof.
  intros Hh Hr. unfold synthetic_frame.
  rewrite (slice_mid header (be16 (5 + 2 * len values))) by (rewrite ?Hh; reflexivity).
  rewrite int_from_bytes_big_be16, !len_app, Hh, Hr, len_words.
  change (len (be16 (5 + 2 * len values))) with 2.
  change (len [2 * len values]) with 1. lia.
Qed.

(** X15. From the wire to the values: when the first attempt that gets
    through receives a well-formed response frame, cut into chunks in any
    way that leaves six bytes in the first and none empty, [send] returns the
    text of that frame and decoding it as [UnsignedInt] with the number of
    its words gives back the 16-bit values that the device sent. *)
Theorem send_then_decode (self : ModbusClient) (hex_command : str)
  (command_bytes : bytes) (retry_count k : Z) (env : Z -> attempt_env)
  (first : bytes) (chunks : list bytes) (tail : list recv_event)
  (header rtu_head : bytes) (values : list Z) :
  fromhex hex_command = Ok command_bytes ->
  0 <= k < retry_count ->
  (forall j, 0 <= j < k -> exchanged command_bytes (env j) = None) ->
  udp (env k) = UdpAnswered ->
  tcp (env k)
  = Accepted {| sendall_raises := false;
                recvs := RecvData first :: map RecvData chunks ++ tail |} ->
  6 <= len first ->
  Forall (fun chunk => chunk <> []) chunks ->
  first ++ List.concat chunks = synthetic_frame header rtu_head values ->
  len header = 4 -> len rtu_head = 4 ->
  Forall (fun v => 0 <= v < 65536) values -> len values <= 127 ->
  exists (log : list io_event) (out : str),
    send self hex_command retry_count env = Ok (log, out)
    /\ out = synthetic_response header rtu_head values
    /\ decode_modbus_response out (len values) (lit "UnsignedInt") = Ok (map VInt values).
Proof.
  intros Hhex Hk Hbefore Hudp Htcp H6 Hne Hframe Hh Hr Hvs Hn.
  assert (Hx : exchanged command_bytes (env k)
               = Some (synthetic_frame header rtu_head values)).
  { unfold exchanged. rewrite Hudp, Htcp.
    rewrite exchange_complete_frame; try assumption.
    - cbn [snd]. now rewrite Hframe.
    - rewrite Hframe. now apply synthetic_frame_length. }
  eexists _, _. split; [|split].
  - rewrite (send_eq self hex_command command_bytes Hhex), range_attempts.
    rewrite (send_loop_first_success self command_bytes env (Z.to_nat retry_count)
               0 (Z.to_nat k) (synthetic_frame header rtu_head values));
      [reflexivity | lia | intros j Hj; apply Hbefore; lia | now rewrite Z2Nat.id by lia].
  - reflexivity.
  - now apply decode_synthetic; [apply reads_words_unsigned | ..].
Qed.

Lemma send_then_decode_witness :
  (fromhex (lit "0104") = Ok [1; 4]
   /\ 0 <= 1 < 2
   /\ [0; 1; 0; 1; 0; 9; 255] ++ List.concat [[4; 1]; [3; 4; 0; 230; 255]; [255]]
      = synthetic_frame [0; 1; 0; 1] [255; 4; 1; 3] [230; 65535])
  /\ exists log out,
       send a_client (lit "0104") 2
         (fun j => if j =? 1
                   then {| udp := UdpAnswered;
                           tcp := Accepted
                                    {| sendall_raises := false;
                                       recvs := RecvData [0; 1; 0; 1; 0; 9; 255]
                                                :: map RecvData
                                                     [[4; 1]; [3; 4; 0; 230; 255]; [255]]
                                                ++ [] |} |}
                   else absent_device)
       = Ok (log, out)
       /\ decode_modbus_response out 2 (lit "UnsignedInt") = Ok [VInt 230; VInt 65535].
Proof.
  assert (H : fromhex (lit "0104") = Ok [1; 4]) by reflexivity.
  split; [split; [exact H | split; [lia | reflexivity]]|].
  destruct (send_then_decode a_client (lit "0104") [1; 4] 2 1
              (fun j => if j =? 1
                        then {| udp := UdpAnswered;
                                tcp := Accepted
                                         {| sendall_raises := false;
                                            recvs := RecvData [0; 1; 0; 1; 0; 9; 255]
                                                     :: map RecvData
                                                          [[4; 1]; [3; 4; 0; 230; 255]; [255]]
                                                     ++ [] |} |}
                        else absent_device)
              [0; 1; 0; 1; 0; 9; 255] [[4; 1]; [3; 4; 0; 230; 255]; [255]] []
              [0; 1; 0; 1] [255; 4; 1; 3] [230; 65535])
    as (log & out & Hs & _ & Hd);
    try reflexivity; try discriminate; try lia.
  - intros j Hj. replace j with 0 by lia. reflexivity.
  - repeat constructor; discriminate.
  - repeat constructor; lia.
  - exists log, out. split; [exact Hs | exact Hd].
Defined.

(** ** The single-request entry point *)

Lemma send_loop_sendto_le (self : ModbusClient) (command_bytes : bytes)
  (env : Z -> attempt_env) (indices : list Z) :
  (count_ops is_udp_sendto (fst (send_loop self command_bytes env indices))
   <= List.length indices)%nat.
Proof.
  induction indices as [|k rest IH]; [cbn; lia|].
  rewrite send_loop_step. unfold attempt_ops.
  pose proof (proj1 (attempt_counts self command_bytes (env k))) as Hu.
  destruct (exchanged command_bytes (env k)); cbn [fst List.length];
    rewrite ?count_ops_app, Hu; lia.
Qed.

(** X16. [run_single_request] makes at most two attempts, on the default
    port: it sends at most two discovery datagrams, each the text
    [set>server=<local_ip>:8899;] addressed to port 58899 of the inverter,
    and it binds nothing but port 8899 of the local address. *)
Theorem run_single_request_operations (inverter_ip0 local_ip0 request : str)
  (env : Z -> attempt_env) (log : list io_event) (out : str) :
  run_single_request inverter_ip0 local_ip0 request env = Ok (log, out) ->
  Z.of_nat (count_ops is_udp_sendto log) <= 2
  /\ Forall (fun ev =>
               match ev with
               | UdpSendto payload ip to_port =>
                   payload = lit "set>server=" ++ local_ip0 ++ lit ":8899;"
                   /\ ip = inverter_ip0 /\ to_port = 58899
               | TcpBind ip on_port => ip = local_ip0 /\ on_port = 8899
               | _ => True
               end) log.
Proof.
  unfold run_single_request, send.
  destruct (fromhex request) as [command_bytes|]; [|discriminate].
  cbn [bind]. intros Hsend.
  apply (f_equal (fun r => match r with Ok x => fst x | Raise _ => [] end)) in Hsend.
  cbv beta iota in Hsend. cbn [fst] in Hsend. rewrite <- Hsend. split.
  - pose proof (send_loop_sendto_le (ModbusClient_init inverter_ip0 local_ip0 8899)
                  command_bytes env (range 2)) as H.
    change (List.length (range 2)) with 2%nat in H. lia.
  - eapply Forall_impl; [|apply send_loop_client_ops].
    intros ev Hev. unfold client_op in Hev.
    cbn [ModbusClient_init local_ip inverter_ip port] in Hev.
    change (str_of_int 8899) with (lit "8899") in Hev.
    repeat (destruct Hev as [Hev | Hev]); subst ev; auto.
Qed.

Lemma run_single_request_operations_witness :
  run_single_request (lit "192.168.1.50") (lit "192.168.1.10") (lit "0104")
    (fun _ => absent_device)
  = Ok (fst (send_loop (ModbusClient_init (lit "192.168.1.50") (lit "192.168.1.10") 8899)
               [1; 4] (fun _ => absent_device) (range 2)), [])
  /\ Z.of_nat
       (count_ops is_udp_sendto
          (fst (send_loop (ModbusClient_init (lit "192.168.1.50") (lit "192.168.1.10") 8899)
                  [1; 4] (fun _ => absent_device) (range 2))))
     <= 2.
Proof.
  assert (E : run_single_request (lit "192.168.1.50") (lit "192.168.1.10") (lit "0104")
                (fun _ => absent_device)
              = Ok (fst (send_loop
                           (ModbusClient_init (lit "192.168.1.50") (lit "192.168.1.10") 8899)
                           [1; 4] (fun _ => absent_device) (range 2)), []))
    by (vm_compute; reflexivity).
  split; [exact E|].
  exact (proj1 (run_single_request_operations _ _ _ _ _ _ E)).
Defined.
